(** * AyushDhara: the health signal processing core

    A shallow embedding of the deterministic functions of the repository:

    - [src/lib/safety.ts]: [checkEmergencyKeywords];
    - [src/lib/prakriti-calculator.ts]: [calculatePrakriti] and its helpers;
    - [src/lib/dynamodb-utils.ts]: [anonymizeForSentinel],
      [validateAnonymization], [getSymptomsByRegion] and
      [aggregateSymptomsByRegion].

    Modelling conventions.

    - A JavaScript string is the list of its UTF-16 code units.
    - A JavaScript [number] is an exact rational ([Q]), and the [count] of
      a stored symptom an integer ([Z]).  The development is therefore about
      finite values computed without rounding: [NaN], the infinities and
      overflow of the binary64 format are outside the model.
    - An object used as a record is the finite map of its own properties; a
      [Map] is the list of its entries in insertion order.
    - A thrown exception is an explicit [Throw] result.
    - Platform primitives that the repository calls but does not define
      ([String.prototype.toLowerCase], the SHA-256 digest of [crypto]) are
      section variables. *)

From Stdlib Require Import ZArith NArith QArith Qround Qminmax Lqa Lia.
From Stdlib Require Import List String Ascii Bool Permutation.
From stdpp Require Import gmap strings list.

Close Scope Q_scope.
Import ListNotations.

(** ** JavaScript values *)

Module JS.

(** UTF-16 code units. *)
Definition jsstring : Type := list N.

(** A string literal of the source, all of whose characters are ASCII. *)
Definition lit (s : string) : jsstring :=
  List.map N_of_ascii (list_ascii_of_string s).

(** The code units removed by [String.prototype.trim]: the WhiteSpace and
    LineTerminator productions of ECMAScript. *)
Definition is_white_space (c : N) : bool :=
  ((9 <=? c) && (c <=? 13) || (c =? 32) || (c =? 160) || (c =? 5760)
   || (8192 <=? c) && (c <=? 8202) || (c =? 8232) || (c =? 8233)
   || (c =? 8239) || (c =? 8287) || (c =? 12288) || (c =? 65279))%N.

Fixpoint trimStart (s : jsstring) : jsstring :=
  match s with
  | [] => []
  | c :: s' => if is_white_space c then trimStart s' else s
  end.

Definition trimEnd (s : jsstring) : jsstring := rev (trimStart (rev s)).

Definition trim (s : jsstring) : jsstring := trimEnd (trimStart s).

(** [startsWith s k]: [k] is a prefix of [s]. *)
Fixpoint startsWith (s k : jsstring) {struct k} : bool :=
  match k, s with
  | [], _ => true
  | _ :: _, [] => false
  | a :: k', b :: s' => (a =? b)%N && startsWith s' k'
  end.

(** [String.prototype.includes]: [k] occurs in [s] at some position. *)
Fixpoint includes (s k : jsstring) : bool :=
  startsWith s k ||
  match s with
  | [] => false
  | _ :: s' => includes s' k
  end.

(** [k] occurs in [s]. *)
Definition occurs (k s : jsstring) : Prop :=
  exists a b, s = a ++ k ++ b.

(** The first code unit of [k] and its last one are not white space. *)
Definition trim_stable (k : jsstring) : bool :=
  match k, rev k with
  | c :: _, d :: _ => negb (is_white_space c) && negb (is_white_space d)
  | _, _ => false
  end.

(** Relational comparison of two strings: lexicographic on code units. *)
Fixpoint str_lt (a b : jsstring) : bool :=
  match a, b with
  | _, [] => false
  | [], _ :: _ => true
  | x :: a', y :: b' => (x <? y)%N || ((x =? y)%N && str_lt a' b')
  end.

(** What a record field or an untyped argument can hold: the primitive
    values, and an object as the list of its own properties. *)
#[warnings="-register-all"]
Inductive value : Type :=
| VUndefined
| VNull
| VBool (b : bool)
| VNumber (q : Q)
| VString (s : jsstring)
| VObject (props : list (string * value)).

(** ToBoolean. *)
Definition truthy (v : value) : bool :=
  match v with
  | VUndefined | VNull => false
  | VBool b => b
  | VNumber q => negb (Qeq_bool q 0)
  | VString s => negb (Nat.eqb (length s) 0)
  | VObject _ => true
  end.

(** [typeof v === 'string'] *)
Definition is_string (v : value) : bool :=
  match v with
  | VString _ => true
  | _ => false
  end.

(** [a === b] between a value and a number literal. *)
Definition strict_equals_number (a : value) (n : Q) : bool :=
  match a with
  | VNumber q => Qeq_bool q n
  | _ => false
  end.

(** [o[key]] on an object given by its own properties. *)
Fixpoint own_property (props : list (string * value)) (key : string)
  : value :=
  match props with
  | [] => VUndefined
  | (k, v) :: rest => if String.eqb k key then v else own_property rest key
  end.

(** The exceptions: a [TypeError] of the platform; [new Error(message)] with
    a literal message; and the two errors whose message is a template,
    [`Invalid answer value: ${answer}. Must be between 1 and 5.`] and
    [`PII field '${field}' detected in anonymized data. DPDP Act 2023
    violation.`], by the value they interpolate. *)
Inductive exn : Type :=
| TypeError
| Error (message : string)
| ErrorInvalidAnswer (answer : Q)
| ErrorPiiField (field : string).

(** What a function body can do: return a value or throw. *)
Inductive completion (A : Type) : Type :=
| Return (a : A)
| Throw (e : exn).

Arguments Return {A} a.
Arguments Throw {A} e.

Definition bind {A B : Type} (c : completion A) (k : A -> completion B)
  : completion B :=
  match c with
  | Return a => k a
  | Throw e => Throw e
  end.

(** [v.length]: the code unit count of a string, the own [length] property
    of an object, [undefined] on a boolean or a number; reading a property
    of [null] or [undefined] throws. *)
Definition get_length (v : value) : completion value :=
  match v with
  | VUndefined | VNull => Throw TypeError
  | VString s => Return (VNumber (inject_Z (Z.of_nat (length s))))
  | VObject props => Return (own_property props "length")
  | VBool _ | VNumber _ => Return VUndefined
  end.

Definition throws {A : Type} (c : completion A) : Prop :=
  exists e, c = Throw e.

Definition returns {A : Type} (c : completion A) : Prop :=
  exists a, c = Return a.

End JS.

Notation "'let*' x ':=' c 'in' k" := (JS.bind c (fun x => k))
  (at level 10, x name, c at level 100, k at level 200).

(** ** Emergency safety layer ([src/lib/safety.ts]) *)

Module Safety.
Import JS.

Record SafetyCheckResult : Type := {
  isEmergency : bool;
  emergencyResponse : option jsstring;
  detectedKeywords : option (list jsstring)
}.

(** The keys of [EMERGENCY_RESPONSES]. *)
Inductive Language : Type := en | hi | ta | te | bn.

Definition EMERGENCY_KEYWORDS : list jsstring :=
  List.map lit
    [ (* Cardiac emergencies *)
      "chest pain"; "heart attack"; "cardiac arrest"; "severe chest pressure";
      (* Respiratory emergencies *)
      "difficulty breathing"; "can't breathe"; "cannot breathe"; "choking";
      "severe breathlessness"; "gasping for air";
      (* Neurological emergencies *)
      "stroke"; "paralysis"; "sudden weakness"; "facial drooping";
      "slurred speech"; "severe headache"; "loss of consciousness";
      "unconscious"; "seizure"; "convulsion";
      (* Trauma emergencies *)
      "severe bleeding"; "heavy bleeding"; "profuse bleeding";
      "severe injury"; "broken bone"; "head injury"; "severe burn";
      (* Other critical conditions *)
      "suicide"; "suicidal"; "poisoning"; "overdose";
      "severe allergic reaction"; "anaphylaxis"; "severe pain";
      "unbearable pain" ]%string.

(** The own property of [EMERGENCY_RESPONSES] named by a language code.
    The parameter has the type ['en' | 'hi' | 'ta' | 'te' | 'bn']; any other
    string, such as the ['fr'] of the tests, names none.  (The properties
    that an object literal inherits, such as [constructor], are not
    modelled.) *)
Definition response_key (language : jsstring) : option Language :=
  if decide (language = lit "en") then Some en
  else if decide (language = lit "hi") then Some hi
  else if decide (language = lit "ta") then Some ta
  else if decide (language = lit "te") then Some te
  else if decide (language = lit "bn") then Some bn
  else None.

Section Classifier.

(** [String.prototype.toLowerCase], a primitive of the platform. *)
Variable toLowerCase : jsstring -> jsstring.

(** The five canned messages of [EMERGENCY_RESPONSES]. *)
Variable EMERGENCY_RESPONSES : Language -> jsstring.

(** [input.toLowerCase()]: only a string has the method. *)
Definition call_toLowerCase (input : value) : completion jsstring :=
  match input with
  | VString s => Return (toLowerCase s)
  | _ => Throw TypeError
  end.

(** [EMERGENCY_RESPONSES[language] || EMERGENCY_RESPONSES.en] *)
Definition select_response (language : jsstring) : jsstring :=
  match response_key language with
  | Some l =>
      if truthy (VString (EMERGENCY_RESPONSES l))
      then EMERGENCY_RESPONSES l
      else EMERGENCY_RESPONSES en
  | None => EMERGENCY_RESPONSES en
  end.

Definition no_emergency : SafetyCheckResult :=
  {| isEmergency := false;
     emergencyResponse := None;
     detectedKeywords := None |}.

(** The test of the loop body:
    [normalizedInput.includes(keyword.toLowerCase())]. *)
Definition hit (normalizedInput keyword : jsstring) : bool :=
  includes normalizedInput (toLowerCase keyword).

(** The loop over [EMERGENCY_KEYWORDS], pushing every match. *)
Definition scan (normalizedInput : jsstring) (table : list jsstring)
  : list jsstring :=
  fold_left
    (fun detected keyword =>
       if hit normalizedInput keyword
       then detected ++ [keyword]
       else detected)
    table [].

(** [k] occurs in [input] when case is ignored. *)
Definition occurs_ignoring_case (k input : jsstring) : Prop :=
  occurs (toLowerCase k) (toLowerCase input).

(** [language] is [None] when the argument is omitted: it defaults to
    ['en']. *)
Definition checkEmergencyKeywords (input : value) (language : option jsstring)
  : completion SafetyCheckResult :=
  let language := default (lit "en") language in
  if negb (truthy input) || negb (is_string input) then
    Return no_emergency
  else
    let* lowered := call_toLowerCase input in
    let normalizedInput := trim lowered in
    let detectedKeywords := scan normalizedInput EMERGENCY_KEYWORDS in
    if (0 <? length detectedKeywords)%nat then
      Return {| isEmergency := true;
                emergencyResponse := Some (select_response language);
                detectedKeywords := Some detectedKeywords |}
    else
      Return no_emergency.

End Classifier.

(** An instance of [toLowerCase] on ASCII text, used to run the classifier
    on concrete inputs. *)
Definition ascii_toLowerCase (s : jsstring) : jsstring :=
  List.map (fun c => if (65 <=? c)%N && (c <=? 90)%N then (c + 32)%N else c) s.

(** Stand-ins for the five messages, used to run the classifier: each names
    its language. *)
Definition sample_responses (l : Language) : jsstring :=
  match l with
  | en => lit "EMERGENCY DETECTED (en)"
  | hi => lit "EMERGENCY DETECTED (hi)"
  | ta => lit "EMERGENCY DETECTED (ta)"
  | te => lit "EMERGENCY DETECTED (te)"
  | bn => lit "EMERGENCY DETECTED (bn)"
  end.

(** The language code that is the key of a message. *)
Definition code (l : Language) : jsstring :=
  match l with
  | en => lit "en"
  | hi => lit "hi"
  | ta => lit "ta"
  | te => lit "te"
  | bn => lit "bn"
  end.

(** The entry that [logEmergencyDetection] passes to [console.warn] after
    the tag ['[EMERGENCY DETECTED]']. *)
Record LogEntry : Type := {
  timestamp : jsstring;
  keywords : list jsstring;
  region : value
}.

(** [region] is whatever the caller passes, [undefined] when omitted; [now]
    is the value of [new Date().toISOString()]. *)
Definition logEmergencyDetection (detectedKeywords : list jsstring)
  (region : value) (now : jsstring) : LogEntry :=
  {| timestamp := now;
     keywords := detectedKeywords;
     region := if truthy region then region else VString (lit "unknown") |}.

End Safety.

(** ** Prakriti calculation ([src/lib/prakriti-calculator.ts]) *)

Module Prakriti.
Import JS.
Local Open Scope Q_scope.

(** The types of [../types] that the calculator uses, with the fields that
    [createQuizAnswer] and [calculatePrakriti] give them. *)

(** [DoshaType]: the string literals ['vata'], ['pitta'], ['kapha'] and
    ['balanced']. *)
Inductive DoshaType : Type := Vata | Pitta | Kapha | Balanced.

(** [PrakritiScores]; the [doshaWeights] of an answer have the same shape. *)
Record PrakritiScores : Type := {
  vata : Q;
  pitta : Q;
  kapha : Q
}.

Record QuizAnswer : Type := {
  questionId : Q;
  answer : Q;
  doshaWeights : PrakritiScores
}.

Record PrakritiProfile : Type := {
  userId : jsstring;
  scores : PrakritiScores;
  dominant : DoshaType;
  secondary : option DoshaType;
  assessmentDate : jsstring
}.

(** [a < b] on numbers. *)
Definition Qltb (a b : Q) : bool := negb (Qle_bool b a).

(** The loop of [calculateRawScores], from the accumulator [scores]. *)
Fixpoint accumulate (answers : list QuizAnswer) (scores : PrakritiScores)
  : completion PrakritiScores :=
  match answers with
  | [] => Return scores
  | a :: rest =>
      if Qltb (answer a) 1 || Qltb 5 (answer a) then
        Throw (ErrorInvalidAnswer (answer a))
      else
        accumulate rest
          {| vata := vata scores + answer a * vata (doshaWeights a);
             pitta := pitta scores + answer a * pitta (doshaWeights a);
             kapha := kapha scores + answer a * kapha (doshaWeights a) |}
  end.

(** The answer is outside of the range 1 to 5. *)
Definition out_of_range (a : QuizAnswer) : Prop :=
  answer a < 1 \/ 5 < answer a.

(** An answer as the data model has it: a value from 1 to 5 and weights
    that are not negative. *)
Definition well_formed (a : QuizAnswer) : Prop :=
  1 <= answer a <= 5
  /\ 0 <= vata (doshaWeights a)
  /\ 0 <= pitta (doshaWeights a)
  /\ 0 <= kapha (doshaWeights a).

(** No score is negative. *)
Definition non_negative (s : PrakritiScores) : Prop :=
  0 <= vata s /\ 0 <= pitta s /\ 0 <= kapha s.

(** All three scores are between 0 and 100. *)
Definition in_range (s : PrakritiScores) : Prop :=
  0 <= vata s <= 100 /\ 0 <= pitta s <= 100 /\ 0 <= kapha s <= 100.

Definition calculateRawScores (answers : list QuizAnswer)
  : completion PrakritiScores :=
  accumulate answers {| vata := 0; pitta := 0; kapha := 0 |}.

(** [Math.max(a, b, c)] *)
Definition Math_max (a b c : Q) : Q := Qmax (Qmax a b) c.

(** [Math.min(a, b, c)] *)
Definition Math_min (a b c : Q) : Q := Qmin (Qmin a b) c.

(** [Math.round]: the nearest integer, halves rounded up. *)
Definition Math_round (x : Q) : Q := inject_Z (Qfloor (x + (1 # 2))).

Definition normalizeScores (rawScores : PrakritiScores) : PrakritiScores :=
  let maxScore :=
    Math_max (vata rawScores) (pitta rawScores) (kapha rawScores) in
  if Qeq_bool maxScore 0 then
    {| vata := 3333 # 100; pitta := 3333 # 100; kapha := 3333 # 100 |}
  else
    {| vata := Math_round ((vata rawScores / maxScore) * 100 * 100) / 100;
       pitta := Math_round ((pitta rawScores / maxScore) * 100 * 100) / 100;
       kapha := Math_round ((kapha rawScores / maxScore) * 100 * 100) / 100 |}.

(** [Array.prototype.sort] with a comparator: a stable sort, in which [x]
    stays in front of [y] unless the comparator is positive on them. *)
Fixpoint sort_insert {A : Type} (compareFn : A -> A -> Q) (x : A)
  (sorted : list A) : list A :=
  match sorted with
  | [] => [x]
  | y :: rest =>
      if Qle_bool (compareFn x y) 0 then x :: sorted
      else y :: sort_insert compareFn x rest
  end.

Fixpoint sort {A : Type} (compareFn : A -> A -> Q) (l : list A) : list A :=
  match l with
  | [] => []
  | x :: rest => sort_insert compareFn x (sort compareFn rest)
  end.

(** Entries 0, 1 and 2 of the sorted three-element array are read by
    destructuring; the default is never reached. *)
Definition entry (i : nat) (l : list (DoshaType * Q)) : DoshaType * Q :=
  nth i l (Vata, 0).

Definition determineDoshas (scores : PrakritiScores)
  : DoshaType * option DoshaType :=
  let doshaScores :=
    sort (fun a b => snd b - snd a)
      [ (Vata, vata scores); (Pitta, pitta scores); (Kapha, kapha scores) ] in
  let '(firstDosha, firstScore) := entry 0 doshaScores in
  let '(secondDosha, secondScore) := entry 1 doshaScores in
  let '(_, thirdScore) := entry 2 doshaScores in
  let scoreRange := firstScore - thirdScore in
  let isBalanced := Qle_bool scoreRange 10 in
  if isBalanced then (Balanced, None)
  else
    let hasSecondary :=
      Qle_bool (firstScore - secondScore) 15 && Qltb thirdScore secondScore in
    (firstDosha, if hasSecondary then Some secondDosha else None).

(** [now] is the value of [new Date().toISOString()] at the call. *)
Definition calculatePrakriti (userId : jsstring) (answers : list QuizAnswer)
  (now : jsstring) : completion PrakritiProfile :=
  if negb (truthy (VString userId))
     || (match trim userId with [] => true | _ :: _ => false end) then
    Throw (Error "userId is required")
  else if Nat.eqb (length answers) 0 then
    Throw (Error "At least one answer is required")
  else
    let* rawScores := calculateRawScores answers in
    let normalizedScores := normalizeScores rawScores in
    let '(dominant, secondary) := determineDoshas normalizedScores in
    Return {| userId := userId;
              scores := normalizedScores;
              dominant := dominant;
              secondary := secondary;
              assessmentDate := now |}.

Definition createQuizAnswer (questionId answer : Q)
  (vataWeight pittaWeight kaphaWeight : Q) : QuizAnswer :=
  {| questionId := questionId;
     answer := answer;
     doshaWeights := {| vata := vataWeight;
                        pitta := pittaWeight;
                        kapha := kaphaWeight |} |}.

(** [scores[dosha]], for a dosha that names a score. *)
Definition score_of (s : PrakritiScores) (d : DoshaType) : Q :=
  match d with
  | Vata => vata s
  | Pitta => pitta s
  | Kapha => kapha s
  | Balanced => 0
  end.

(** The middle one of three numbers. *)
Definition median (a b c : Q) : Q := Qmax (Qmin a b) (Qmin (Qmax a b) c).

(** Some weight of the answer is positive. *)
Definition positive_weight (a : QuizAnswer) : Prop :=
  0 < vata (doshaWeights a)
  \/ 0 < pitta (doshaWeights a)
  \/ 0 < kapha (doshaWeights a).

(** All three weights of the answer are zero. *)
Definition zero_weights (a : QuizAnswer) : Prop :=
  vata (doshaWeights a) == 0
  /\ pitta (doshaWeights a) == 0
  /\ kapha (doshaWeights a) == 0.

End Prakriti.

(** ** Privacy utilities ([src/lib/dynamodb-utils.ts]) *)

Module Sentinel.
Import JS.

Inductive Severity : Type := low | medium | high.

(** The string a [severity] is at run time. *)
Definition severity_string (v : Severity) : jsstring :=
  match v with
  | low => lit "low"
  | medium => lit "medium"
  | high => lit "high"
  end.

(** [report.location], as the request type of the design notes has it. *)
Record Location : Type := {
  pincode : jsstring;
  state : jsstring
}.

(** Modelled from the spec: the type [SymptomReport] of [../types], whose
    declaration is not among the sources.  The fields are those that
    [anonymizeForSentinel] reads, with [severity] as the data model has it;
    the argument may also carry [name], [phone], [email] and
    [fullAddress]. *)
Record SymptomReport : Type := {
  userId : jsstring;
  symptomType : jsstring;
  severity : Severity;
  location : Location;
  timestamp : Q;
  name : option jsstring;
  phone : option jsstring;
  email : option jsstring;
  fullAddress : option jsstring
}.

Section Anonymize.

(** [createHash('sha256').update(text).digest('hex')] of Node's [crypto]. *)
Variable sha256_hex : jsstring -> jsstring.

(** The object literal that [anonymizeForSentinel] returns, as the finite
    map of its own properties.  [salt] is always given: the default of the
    parameter reads the environment. *)
Definition anonymizeForSentinel (report : SymptomReport) (salt : jsstring)
  : gmap string value :=
  let hashedUserId := sha256_hex (userId report ++ salt) in
  <["timestamp" := VNumber (timestamp report)]>
    (<["pincode" := VString (pincode (location report))]>
       (<["severity" := VString (severity_string (severity report))]>
          (<["symptomType" := VString (symptomType report)]>
             (<["hashedUserId" := VString hashedUserId]> ∅)))).

End Anonymize.

Definition piiFields : list string :=
  ["name"; "phone"; "email"; "fullAddress"; "address"]%string.

(** [data.hasOwnProperty(field)] *)
Definition hasOwnProperty (data : gmap string value) (field : string) : bool :=
  bool_decide (is_Some (data !! field)).

(** The loop of [validateAnonymization] over [piiFields]. *)
Fixpoint check_pii (fields : list string) (data : gmap string value)
  : completion unit :=
  match fields with
  | [] => Return tt
  | field :: rest =>
      if hasOwnProperty data field then Throw (ErrorPiiField field)
      else check_pii rest data
  end.

(** The record has none of the forbidden keys. *)
Definition pii_free (data : gmap string value) : Prop :=
  forall field, In field piiFields -> data !! field = None.

(** [v.length] is the number 64. *)
Definition has_length_64 (v : value) : Prop :=
  match v with
  | VString s => length s = 64%nat
  | VObject props =>
      exists q, own_property props "length" = VNumber q /\ (q == inject_Z 64)%Q
  | _ => False
  end.

(** The error of the length test. *)
Definition not_hashed : exn :=
  Error "userId must be hashed before storage in public health database".

(** [data.userId]: [undefined] when the record has no such property. *)
Definition get_userId (data : gmap string value) : value :=
  default VUndefined (data !! "userId"%string).

Definition validateAnonymization (data : gmap string value)
  : completion bool :=
  let* _ := check_pii piiFields data in
  if truthy (get_userId data) then
    let* len := get_length (get_userId data) in
    if negb (strict_equals_number len (inject_Z 64)) then
      Throw not_hashed
    else Return true
  else Return true.

(** Two reports carry the same signal: they agree on the five fields that
    [anonymizeForSentinel] reads. *)
Definition same_signal (r r' : SymptomReport) : Prop :=
  userId r = userId r'
  /\ symptomType r = symptomType r'
  /\ severity r = severity r'
  /\ pincode (location r) = pincode (location r')
  /\ timestamp r = timestamp r'.

(** A record with an empty [userId] and no forbidden key. *)
Definition sample_record : gmap string value :=
  <["pincode"%string := VString (lit "110001")]>
    {[ "userId"%string := VString [] ]}.

End Sentinel.

Module Aggregation.
Import JS.

(** [SymptomEntity], with the fields that [createSymptom] writes. *)
Record SymptomEntity : Type := {
  PK : jsstring;
  SK : jsstring;
  symptomType : jsstring;
  count : Z;
  severity : jsstring;
  date : jsstring;
  GSI1PK : jsstring;
  GSI1SK : jsstring
}.

Definition generateRegionPK (pincode : jsstring) : jsstring :=
  lit "REGION#" ++ pincode.

(** [Map<string, number>]: the entries in insertion order. *)
Definition Map : Type := list (jsstring * Z).

Fixpoint Map_get (m : Map) (key : jsstring) : option Z :=
  match m with
  | [] => None
  | (k, v) :: rest => if decide (k = key) then Some v else Map_get rest key
  end.

(** [set] overwrites the value of a key that is present, in place, and
    appends a new key. *)
Fixpoint Map_set (m : Map) (key : jsstring) (v : Z) : Map :=
  match m with
  | [] => [(key, v)]
  | (k, v') :: rest =>
      if decide (k = key) then (k, v) :: rest
      else (k, v') :: Map_set rest key v
  end.

(** [aggregation.get(key) || 0] *)
Definition get_or_zero (m : Map) (key : jsstring) : Z :=
  match Map_get m key with
  | Some v => if (v =? 0)%Z then 0%Z else v
  | None => 0%Z
  end.

(** The body of the loop of [aggregateSymptomsByRegion]. *)
Definition step (aggregation : Map) (symptom : SymptomEntity) : Map :=
  let current := get_or_zero aggregation (symptomType symptom) in
  Map_set aggregation (symptomType symptom) (current + count symptom)%Z.

(** An optional string argument is truthy when given and not empty. *)
Definition given (s : option jsstring) : bool :=
  match s with
  | Some s => truthy (VString s)
  | None => false
  end.

(** Some record of the collection has the symptom type [key]. *)
Definition reported (key : jsstring) (symptoms : list SymptomEntity) : bool :=
  existsb (fun symptom => bool_decide (symptomType symptom = key)) symptoms.

(** The sum of the [count] fields of the records of symptom type [key]. *)
Fixpoint total (key : jsstring) (symptoms : list SymptomEntity) : Z :=
  match symptoms with
  | [] => 0
  | symptom :: rest =>
      if decide (symptomType symptom = key)
      then count symptom + total key rest
      else total key rest
  end.

(** The keys of a map, in the order of its entries. *)
Definition keys (m : Map) : list jsstring := List.map fst m.

(** The sum of the values of a map. *)
Definition sum_values (m : Map) : Z :=
  fold_right Z.add 0%Z (List.map snd m).

(** The strings of a list without the later copies of each. *)
Fixpoint distinct (l : list jsstring) : list jsstring :=
  match l with
  | [] => []
  | x :: rest =>
      x :: List.filter (fun y => negb (bool_decide (y = x))) (distinct rest)
  end.

Section Store.

(** The store: [Items] of the response to the query
    [PK = :pk AND begins_with(SK, 'SYMPTOM#')], absent when the response
    has none. *)
Variable query_items : jsstring -> option (list SymptomEntity).

Definition getSymptomsByRegion (pincode : jsstring)
  (startDate endDate : option jsstring) : list SymptomEntity :=
  let items := default [] (query_items (generateRegionPK pincode)) in
  if given startDate || given endDate then
    List.filter
      (fun item =>
         if given startDate && str_lt (date item) (default [] startDate)
         then false
         else if given endDate && str_lt (default [] endDate) (date item)
         then false
         else true)
      items
  else items.

(** The loop of [aggregateSymptomsByRegion], from an empty map. *)
Definition aggregate (symptoms : list SymptomEntity) : Map :=
  fold_left step symptoms [].

Definition aggregateSymptomsByRegion (pincode date : jsstring) : Map :=
  let symptoms := getSymptomsByRegion pincode (Some date) (Some date) in
  aggregate symptoms.

End Store.

(** A record of the region 110001 on 2026-02-01. *)
Definition record (symptomType : string) (count : Z) : SymptomEntity :=
  {| PK := lit "REGION#110001";
     SK := lit "SYMPTOM#" ++ lit symptomType ++ lit "#2026-02-01";
     symptomType := lit symptomType;
     count := count;
     severity := lit "medium";
     date := lit "2026-02-01";
     GSI1PK := lit "SYMPTOM#" ++ lit symptomType;
     GSI1SK := lit "DATE#2026-02-01" |}.

(** A store that answers the query for the region 110001 with [items]. *)
Definition store (items : list SymptomEntity) (pk : jsstring)
  : option (list SymptomEntity) :=
  if decide (pk = lit "REGION#110001") then Some items else None.

End Aggregation.

(** ** Keys, queries and batches ([src/lib/dynamodb-utils.ts]) *)

Module Dynamo.
Import JS.

(** [a || b] on optional strings: [a] when it is given and not empty. *)
Definition or_else (a : option jsstring) (b : jsstring) : jsstring :=
  match a with
  | Some s => if truthy (VString s) then s else b
  | None => b
  end.

Section Keys.

(** The string that a template literal makes of a number. *)
Variable number_to_string : Z -> jsstring.

Definition generateUserPK (userId : jsstring) : jsstring :=
  lit "USER#" ++ userId.

Definition generateProfileSK : jsstring := lit "PROFILE".

(** [timestamp || Date.now()], with [now] the value of [Date.now()]. *)
Definition timestamp_or_now (timestamp : option Z) (now : Z) : Z :=
  match timestamp with
  | Some ts => if (ts =? 0)%Z then now else ts
  | None => now
  end.

Definition generatePrakritiSK (timestamp : option Z) (now : Z) : jsstring :=
  let ts := timestamp_or_now timestamp now in
  lit "PRAKRITI#" ++ number_to_string ts.

Definition generateQuerySK (timestamp : option Z) (now : Z) : jsstring :=
  let ts := timestamp_or_now timestamp now in
  lit "QUERY#" ++ number_to_string ts.

Definition generateSymptomSK (symptomType date : jsstring) : jsstring :=
  lit "SYMPTOM#" ++ symptomType ++ lit "#" ++ date.

(** A string without the separator [#]. *)
Definition plain (s : jsstring) : Prop := ~ In 35%N s.

Definition generateWellnessPlanSK (date : jsstring) : jsstring :=
  lit "PLAN#" ++ date.

Definition generateSymptomGSI1PK (symptomType : jsstring) : jsstring :=
  lit "SYMPTOM#" ++ symptomType.

Definition generateSymptomGSI1SK (date : jsstring) : jsstring :=
  lit "DATE#" ++ date.

End Keys.

(** *** [buildQuery] *)

Inductive SkCondition : Type :=
| begins_with | between | equals | greater_than | less_than.

(** [skValue]: a string, or an array of strings. *)
Inductive SkValue : Type :=
| SkString (s : jsstring)
| SkArray (items : list jsstring).

Record QueryBuilderOptions : Type := {
  tableName : option jsstring;
  indexName : option jsstring;
  pk : jsstring;
  sk : option jsstring;
  skCondition : option SkCondition;
  skValue : option SkValue;
  limit : option Q;
  scanIndexForward : option bool;
  filterExpression : option jsstring;
  filterValues : option (gmap string value)
}.

Record QueryCommandInput : Type := {
  TableName : jsstring;
  IndexName : option jsstring;
  KeyConditionExpression : jsstring;
  ExpressionAttributeValues : gmap string value;
  Limit : option Q;
  ScanIndexForward : option bool;
  FilterExpression : option jsstring
}.

(** The condition on the sort key: what is appended to the expression and
    what is bound. *)
Definition sk_clause (options : QueryBuilderOptions)
  : jsstring * gmap string value :=
  match sk options, skCondition options with
  | Some s, Some condition =>
      if truthy (VString s) then
        match condition with
        | begins_with =>
            (lit " AND begins_with(SK, :sk)", {[ ":sk"%string := VString s ]})
        | equals => (lit " AND SK = :sk", {[ ":sk"%string := VString s ]})
        | greater_than => (lit " AND SK > :sk", {[ ":sk"%string := VString s ]})
        | less_than => (lit " AND SK < :sk", {[ ":sk"%string := VString s ]})
        | between =>
            match skValue options with
            | Some (SkArray [first; second]) =>
                (lit " AND SK BETWEEN :sk1 AND :sk2",
                 <[":sk2"%string := VString second]>
                   {[ ":sk1"%string := VString first ]})
            | _ => ([], ∅)
            end
        end
      else ([], ∅)
  | _, _ => ([], ∅)
  end.

(** The sort key condition is applied: [sk] is given and not empty, a
    condition is named and, for [between], [skValue] is an array of two. *)
Definition sk_condition_applies (options : QueryBuilderOptions) : Prop :=
  exists s condition,
    sk options = Some s /\ s <> []
    /\ skCondition options = Some condition
    /\ (condition = between ->
        exists first second, skValue options = Some (SkArray [first; second])).

(** [options.filterExpression && options.filterValues] *)
Definition filter_applied (options : QueryBuilderOptions)
  : option (jsstring * gmap string value) :=
  match filterExpression options, filterValues options with
  | Some e, Some values =>
      if truthy (VString e) then Some (e, values) else None
  | _, _ => None
  end.

Section Table.

(** [process.env.DYNAMODB_TABLE_NAME] *)
Variable env_DYNAMODB_TABLE_NAME : option jsstring.

Definition TABLE_NAME : jsstring :=
  or_else env_DYNAMODB_TABLE_NAME (lit "AyushDhara-Main").

(** [expressionAttributeValues] is one object: what [Object.assign] writes
    into it at the end is seen through [queryInput], and a value of the
    filter replaces a binding of the same name. *)
Definition buildQuery (options : QueryBuilderOptions) : QueryCommandInput :=
  let keyConditionExpression := lit "PK = :pk" ++ fst (sk_clause options) in
  let expressionAttributeValues :=
    snd (sk_clause options) ∪ {[ ":pk"%string := VString (pk options) ]} in
  {| TableName := or_else (tableName options) TABLE_NAME;
     KeyConditionExpression := keyConditionExpression;
     ExpressionAttributeValues :=
       match filter_applied options with
       | Some (_, values) => values ∪ expressionAttributeValues
       | None => expressionAttributeValues
       end;
     IndexName :=
       match indexName options with
       | Some i => if truthy (VString i) then Some i else None
       | None => None
       end;
     Limit :=
       match limit options with
       | Some n => if truthy (VNumber n) then Some n else None
       | None => None
       end;
     ScanIndexForward := scanIndexForward options;
     FilterExpression := option_map fst (filter_applied options) |}.

(** The command of [getSymptomsByType]. *)
Definition getSymptomsByType_command (symptomType : jsstring)
  (startDate endDate : option jsstring) : QueryCommandInput :=
  let start := or_else startDate [] in
  let finish := or_else endDate [] in
  let '(clause, bound) :=
    if truthy (VString start) && truthy (VString finish) then
      (lit " AND GSI1SK BETWEEN :startDate AND :endDate",
       <[":endDate"%string := VString (generateSymptomGSI1SK finish)]>
         {[ ":startDate"%string := VString (generateSymptomGSI1SK start) ]})
    else if truthy (VString start) then
      (lit " AND GSI1SK >= :startDate",
       {[ ":startDate"%string := VString (generateSymptomGSI1SK start) ]})
    else if truthy (VString finish) then
      (lit " AND GSI1SK <= :endDate",
       {[ ":endDate"%string := VString (generateSymptomGSI1SK finish) ]})
    else ([], ∅) in
  {| TableName := TABLE_NAME;
     IndexName := Some (lit "GSI1");
     KeyConditionExpression := lit "GSI1PK = :gsi1pk" ++ clause;
     ExpressionAttributeValues :=
       bound ∪ {[ ":gsi1pk"%string :=
                    VString (generateSymptomGSI1PK symptomType) ]};
     Limit := None;
     ScanIndexForward := None;
     FilterExpression := None |}.

End Table.

(** The placeholders of an expression: each colon with the letters, digits
    and underscores that follow it. *)
Definition is_name_char (c : N) : bool :=
  ((48 <=? c) && (c <=? 57) || (65 <=? c) && (c <=? 90)
   || (97 <=? c) && (c <=? 122) || (c =? 95))%N.

Fixpoint take_name (s : jsstring) : jsstring :=
  match s with
  | [] => []
  | c :: rest => if is_name_char c then c :: take_name rest else []
  end.

Fixpoint placeholders (expression : jsstring) : list jsstring :=
  match expression with
  | [] => []
  | c :: rest =>
      if (c =? 58)%N then (c :: take_name rest) :: placeholders rest
      else placeholders rest
  end.

(** *** [getUser] and [batchGetUsers] *)

Record UserEntity : Type := {
  PK : jsstring;
  SK : jsstring;
  userId : jsstring;
  language : jsstring;
  createdAt : jsstring;
  consentGiven : bool;
  encryptedData : option jsstring
}.

Section Users.

(** The store: [Item] of the response to a [GetCommand] for a key, absent
    when there is no such item. *)
Variable get_item : jsstring -> jsstring -> option UserEntity.

(** [null] is [None]. *)
Definition getUser (userId : jsstring) : option UserEntity :=
  get_item (generateUserPK userId) generateProfileSK.

(** [userIds.slice(i, i + 100)] *)
Definition slice (userIds : list jsstring) (i : nat) : list jsstring :=
  take 100 (drop i userIds).

(** The loop of [batchGetUsers], run at most [turns] times. *)
Fixpoint batch_loop (turns : nat) (userIds : list jsstring) (i : nat)
  (results : list UserEntity) : list UserEntity :=
  match turns with
  | O => results
  | S turns' =>
      if (i <? length userIds)%nat then
        let batch := slice userIds i in
        let batchResults := List.map getUser batch in
        batch_loop turns' userIds (i + 100)
          (results ++ omap id batchResults)
      else results
  end.

(** The index grows by 100 in each turn, so [length userIds] turns are
    enough. *)
Definition batchGetUsers (userIds : list jsstring) : list UserEntity :=
  batch_loop (length userIds) userIds 0 [].

End Users.

End Dynamo.

(** ** Chat route ([src/app/api/chat/route.ts]) *)

Module Chat.
Import JS Safety.

(** [v[key]] for a key that no primitive has: the own property of an
    object, [undefined] on a primitive; reading a property of [null] or
    [undefined] throws. *)
Definition get_property (v : value) (key : string) : completion value :=
  match v with
  | VUndefined | VNull => Throw TypeError
  | VObject props => Return (own_property props key)
  | VBool _ | VNumber _ | VString _ => Return VUndefined
  end.

(** [v?.[key]] *)
Definition get_optional (v : value) (key : string) : completion value :=
  match v with
  | VUndefined | VNull => Return VUndefined
  | _ => get_property v key
  end.

(** The [data] of a successful response.  A property whose value is
    [undefined] is absent. *)
Record QueryResponse : Type := {
  response : option jsstring;
  sources : list jsstring;
  confidence : Q;
  isEmergency : option bool
}.

(** The payload of [NextResponse.json]: [{ success: false, error: { code,
    message } }] or [{ success: true, data }]. *)
Inductive Payload : Type :=
| Failure (code message : string)
| Success (data : QueryResponse).

Record NextResponse : Type := {
  payload : Payload;
  status : Z
}.

(** What the handler writes to the console. *)
Inductive ConsoleLine : Type :=
| Warn (tag : string) (entry : LogEntry)
| ConsoleError (tag : string) (error : exn).

Definition invalid_request : NextResponse :=
  {| payload := Failure "INVALID_REQUEST" "userId and query are required";
     status := 400 |}.

Definition internal_error : NextResponse :=
  {| payload :=
       Failure "INTERNAL_ERROR" "An error occurred processing your request";
     status := 500 |}.

Definition placeholder : NextResponse :=
  {| payload :=
       Success
         {| response :=
              Some (lit "This is a placeholder response. Bedrock RAG integration pending.");
            sources := [lit "Placeholder"];
            confidence := 1 # 2;
            isEmergency := None |};
     status := 200 |}.

Definition emergency (safetyCheck : SafetyCheckResult) : NextResponse :=
  {| payload :=
       Success
         {| response := emergencyResponse safetyCheck;
            sources := [lit "Emergency Safety Protocol"];
            confidence := 1;
            isEmergency := Some true |};
     status := 200 |}.

(** [body[key]] once [body] is known not to be [null] or [undefined]. *)
Definition field (body : value) (key : string) : value :=
  match body with
  | VObject props => own_property props key
  | _ => VUndefined
  end.

(** [location?.pincode || 'unknown'], the region of the log entry. *)
Definition logged_region (body : value) : value :=
  let pincode :=
    match field body "location" with
    | VObject props => own_property props "pincode"
    | _ => VUndefined
    end in
  if truthy pincode then pincode else VString (lit "unknown").

Section Handler.

Variable toLowerCase : jsstring -> jsstring.
Variable EMERGENCY_RESPONSES : Language -> jsstring.

(** The property key that a value other than a string is converted to when
    it indexes [EMERGENCY_RESPONSES], a conversion of the platform. *)
Variable ToPropertyKey : value -> jsstring.

(** [language as any], as [checkEmergencyKeywords] receives it: the default
    applies to [undefined] only. *)
Definition language_argument (language : value) : option jsstring :=
  match language with
  | VUndefined => None
  | VString s => Some s
  | _ => Some (ToPropertyKey language)
  end.

(** The body of the [try] block.  [request_json] is the outcome of
    [await request.json()] and [now] the time of the log entry. *)
Definition try_block (request_json : completion value) (now : jsstring)
  : completion (NextResponse * list ConsoleLine) :=
  let* body := request_json in
  let* userId := get_property body "userId" in
  let* query := get_property body "query" in
  let* language := get_property body "language" in
  let* location := get_property body "location" in
  if negb (truthy userId) || negb (truthy query) then
    Return (invalid_request, [])
  else
    let* safetyCheck :=
      checkEmergencyKeywords toLowerCase EMERGENCY_RESPONSES query
        (language_argument language) in
    if Safety.isEmergency safetyCheck then
      let* pincode := get_optional location "pincode" in
      Return (emergency safetyCheck,
              [Warn "[EMERGENCY DETECTED]"
                 (logEmergencyDetection
                    (default [] (detectedKeywords safetyCheck)) pincode now)])
    else
      Return (placeholder, []).

(** The handler: an exception of the [try] block is logged and answered
    with status 500. *)
Definition POST (request_json : completion value) (now : jsstring)
  : NextResponse * list ConsoleLine :=
  match try_block request_json now with
  | Return outcome => outcome
  | Throw error => (internal_error, [ConsoleError "[Chat API Error]" error])
  end.

End Handler.

(** A request body with the fields of [QueryRequest]. *)
Definition request (userId query language pincode : string) : value :=
  VObject
    [("userId"%string, VString (lit userId));
     ("query"%string, VString (lit query));
     ("language"%string, VString (lit language));
     ("location"%string,
      VObject [("pincode"%string, VString (lit pincode));
               ("state"%string, VString (lit "Delhi"))])].

(** A stand-in for the conversion of the platform, used to run the
    handler. *)
Definition sample_key (v : value) : jsstring := lit "[object Object]".

End Chat.

(** * Properties *)

(** ** Strings *)

Module JSFacts.
Import JS.

Lemma startsWith_spec (s k : jsstring) :
  startsWith s k = true <-> exists b, s = k ++ b.
Proof.
  revert s. induction k as [|c k IH]; intros s; simpl.
  - split; [intros _; now exists s | reflexivity].
  - destruct s as [|d s].
    + split; [discriminate | intros [b Hb]; discriminate].
    + rewrite andb_true_iff, N.eqb_eq, IH. split.
      * intros [-> [b ->]]. now exists b.
      * intros [b Hb]. injection Hb as -> ->. split; [reflexivity | now exists b].
Qed.

Lemma includes_spec (s k : jsstring) :
  includes s k = true <-> occurs k s.
Proof.
  unfold occurs. induction s as [|d s IH].
  - simpl. rewrite orb_false_r, startsWith_spec. split.
    + intros [b Hb]. now exists [], b.
    + intros (a & b & H). destruct a; [now exists b | discriminate].
  - cbn [includes]. rewrite orb_true_iff, startsWith_spec, IH. split.
    + intros [[b Hb] | (a & b & Hab)].
      * now exists [], b.
      * exists (d :: a), b. now rewrite Hab.
    + intros (a & b & Hab). destruct a as [|x a].
      * left. now exists b.
      * right. injection Hab as -> ->. now exists a, b.
Qed.

Lemma occurs_rev (k s : jsstring) : occurs k s -> occurs (rev k) (rev s).
Proof.
  intros (a & b & ->). exists (rev b), (rev a).
  now rewrite !rev_app_distr, <- app_assoc.
Qed.

Lemma occurs_rev_iff (k s : jsstring) : occurs (rev k) (rev s) <-> occurs k s.
Proof.
  split; [|apply occurs_rev].
  intros H. apply occurs_rev in H. now rewrite !rev_involutive in H.
Qed.

(** [trimStart] removes a prefix. *)
Lemma trimStart_suffix (s : jsstring) : exists ws, s = ws ++ trimStart s.
Proof.
  induction s as [|c s [ws IH]]; simpl.
  - now exists [].
  - destruct (is_white_space c).
    + exists (c :: ws). simpl. now f_equal.
    + now exists [].
Qed.

(** A string that does not start with white space lies inside what
    [trimStart] keeps. *)
Lemma occurs_trimStart (c : N) (k s : jsstring) :
  is_white_space c = false ->
  occurs (c :: k) (trimStart s) <-> occurs (c :: k) s.
Proof.
  intros Hc. split.
  - intros (a & b & H). destruct (trimStart_suffix s) as [ws Hws].
    exists (ws ++ a), b. rewrite Hws at 1. rewrite H. now rewrite <- app_assoc.
  - intros (a & b & ->). induction a as [|x a IH]; simpl.
    + rewrite Hc. now exists [], b.
    + destruct (is_white_space x); [exact IH | now exists (x :: a), b].
Qed.

Lemma includes_trim (k s : jsstring) :
  trim_stable k = true -> includes (trim s) k = includes s k.
Proof.
  unfold trim_stable. intros Hk.
  destruct k as [|c k0] eqn:Ek; [discriminate|].
  destruct (rev (c :: k0)) as [|d r] eqn:Er; [discriminate|].
  apply andb_true_iff in Hk as [Hc Hd].
  apply negb_true_iff in Hc, Hd.
  apply eq_true_iff_eq. rewrite !includes_spec.
  unfold trim, trimEnd.
  rewrite <- (occurs_rev_iff (c :: k0) (rev _)), rev_involutive, Er.
  rewrite (occurs_trimStart d r _ Hd), <- Er, occurs_rev_iff.
  now apply occurs_trimStart.
Qed.

End JSFacts.

(** ** The emergency classifier *)

Module SafetyFacts.
Import JS JSFacts Safety.

Lemma filter_sublist {A : Type} (f : A -> bool) (l : list A) :
  sublist (List.filter f l) l.
Proof.
  induction l as [|x l IH]; simpl.
  - constructor.
  - destruct (f x); now constructor.
Qed.

Lemma EMERGENCY_KEYWORDS_NoDup : NoDup EMERGENCY_KEYWORDS.
Proof. apply (bool_decide_unpack _). vm_compute. reflexivity. Qed.

Lemma EMERGENCY_KEYWORDS_trim_stable :
  forall k, In k EMERGENCY_KEYWORDS -> trim_stable k = true.
Proof.
  apply List.Forall_forall. apply (bool_decide_unpack _). vm_compute.
  reflexivity.
Qed.

(** The table is only ever unfolded by evaluation, in the two lemmas
    above. *)
#[local] Opaque EMERGENCY_KEYWORDS.

Section Classifier.

Variable toLowerCase : jsstring -> jsstring.
Variable EMERGENCY_RESPONSES : Language -> jsstring.

Local Abbreviation classify :=
  (checkEmergencyKeywords toLowerCase EMERGENCY_RESPONSES).
Local Abbreviation hit := (Safety.hit toLowerCase).
Local Abbreviation occurs_ignoring_case :=
  (Safety.occurs_ignoring_case toLowerCase).

Lemma scan_filter (normalizedInput : jsstring) (table : list jsstring) :
  scan toLowerCase normalizedInput table
  = List.filter (hit normalizedInput) table.
Proof.
  unfold scan.
  enough (H : forall acc,
             fold_left
               (fun detected keyword =>
                  if hit normalizedInput keyword
                  then detected ++ [keyword] else detected) table acc
             = acc ++ List.filter (hit normalizedInput) table)
    by apply (H []).
  induction table as [|k table IH]; intros acc; simpl.
  - now rewrite app_nil_r.
  - rewrite IH. destruct (hit normalizedInput k); [|reflexivity].
    now rewrite <- app_assoc.
Qed.

(** The classifier on a string, without the monad. *)
Lemma classify_string (input : jsstring) (language : option jsstring) :
  classify (VString input) language
  = match input with
    | [] => Return no_emergency
    | _ :: _ =>
        match List.filter (hit (trim (toLowerCase input))) EMERGENCY_KEYWORDS with
        | [] => Return no_emergency
        | ks =>
            Return {| isEmergency := true;
                      emergencyResponse :=
                        Some (select_response EMERGENCY_RESPONSES
                                (default (lit "en") language));
                      detectedKeywords := Some ks |}
        end
    end.
Proof.
  unfold checkEmergencyKeywords. destruct input as [|c s]; [reflexivity|].
  cbn [truthy is_string length Nat.eqb negb orb call_toLowerCase bind].
  rewrite scan_filter.
  now destruct (List.filter _ EMERGENCY_KEYWORDS).
Qed.

(** C2. [checkEmergencyKeywords] returns on every input, of any type, and
    what it returns on [null], [undefined], the empty string and any value
    that is not a string is [{ isEmergency: false }], which has neither
    keywords nor an emergency response. *)
Theorem checkEmergencyKeywords_total (input : value)
  (language : option jsstring) :
  returns (classify input language)
  /\ (is_string input = false \/ input = VString [] ->
      classify input language = Return no_emergency)
  /\ isEmergency no_emergency = false
  /\ detectedKeywords no_emergency = None
  /\ emergencyResponse no_emergency = None.
Proof.
  split; [|split; [|now repeat split]].
  - destruct input as [| |b|q|s|props].
    1-4, 6: exists no_emergency; unfold checkEmergencyKeywords;
      cbn [truthy is_string negb orb]; now rewrite ?orb_true_r.
    rewrite classify_string. unfold returns.
    destruct s; [now eexists|].
    destruct (List.filter _ _); now eexists.
  - intros [H | ->]; [|apply classify_string].
    unfold checkEmergencyKeywords. rewrite H.
    now rewrite orb_true_r.
Qed.

(** C10. The keywords reported for a string are a subsequence of the keyword
    table: they are table entries as the table spells them, in the order of
    the table, none of them twice, and every entry that the loop matches is
    among them. *)
Theorem detectedKeywords_table_order (input : jsstring)
  (language : option jsstring) :
  exists r,
    classify (VString input) language = Return r
    /\ (isEmergency r = true ->
        exists ks,
          detectedKeywords r = Some ks
          /\ sublist ks EMERGENCY_KEYWORDS
          /\ NoDup ks
          /\ (forall k,
                In k ks <->
                In k EMERGENCY_KEYWORDS
                /\ hit (trim (toLowerCase input)) k = true)).
Proof.
  rewrite classify_string.
  destruct input as [|c s]; [now exists no_emergency|].
  pose proof (filter_sublist (hit (trim (toLowerCase (c :: s))))
                EMERGENCY_KEYWORDS) as Hsub.
  destruct (List.filter _ EMERGENCY_KEYWORDS) as [|k ks] eqn:E;
    [now exists no_emergency|].
  eexists; split; [reflexivity|]. intros _. exists (k :: ks).
  cbn [detectedKeywords].
  split; [reflexivity|]. split; [exact Hsub|]. split.
  - eapply sublist_NoDup; [exact EMERGENCY_KEYWORDS_NoDup | exact Hsub].
  - intros k'. rewrite <- E. apply filter_In.
Qed.

(** What is known of [toLowerCase]: it leaves the empty string and the
    entries of the table, which are lower-case ASCII, as they are. *)
Hypothesis toLowerCase_empty : toLowerCase [] = [].
Hypothesis toLowerCase_keywords :
  forall k, In k EMERGENCY_KEYWORDS -> toLowerCase k = k.

Lemma hit_spec (input k : jsstring) :
  In k EMERGENCY_KEYWORDS ->
  hit (trim (toLowerCase input)) k = true <-> occurs_ignoring_case k input.
Proof.
  intros Hk. unfold Safety.hit, Safety.occurs_ignoring_case.
  rewrite includes_trim, includes_spec; [reflexivity|].
  rewrite (toLowerCase_keywords k Hk).
  now apply EMERGENCY_KEYWORDS_trim_stable.
Qed.

(** C8. On a string, the classifier compares the input with every entry of
    the table, ignoring case: it reports an emergency exactly when some
    entry occurs in the input, and it then reports exactly the entries that
    occur. *)
Theorem checkEmergencyKeywords_collects_all (input : jsstring)
  (language : option jsstring) :
  exists r,
    classify (VString input) language = Return r
    /\ (isEmergency r = true <->
        exists k, In k EMERGENCY_KEYWORDS /\ occurs_ignoring_case k input)
    /\ (isEmergency r = true ->
        exists ks,
          detectedKeywords r = Some ks
          /\ forall k, In k ks <->
                       In k EMERGENCY_KEYWORDS /\ occurs_ignoring_case k input).
Proof.
  assert (Hfilter : forall k,
             In k (List.filter (hit (trim (toLowerCase input)))
                     EMERGENCY_KEYWORDS)
             <-> In k EMERGENCY_KEYWORDS /\ occurs_ignoring_case k input).
  { intros k. rewrite filter_In. split; intros [Hk H]; split; trivial;
      now apply (hit_spec input k Hk). }
  rewrite classify_string. destruct input as [|c s].
  - exists no_emergency. split; [reflexivity|]. split; [|discriminate].
    split; [discriminate|]. intros (k & Hk & a & b & H).
    rewrite toLowerCase_empty, (toLowerCase_keywords k Hk) in H.
    apply EMERGENCY_KEYWORDS_trim_stable in Hk.
    destruct a; [destruct k|]; discriminate.
  - destruct (List.filter _ EMERGENCY_KEYWORDS) as [|k ks] eqn:E.
    + exists no_emergency. split; [reflexivity|]. split; [|discriminate].
      split; [discriminate|]. intros (k & Hk). now apply Hfilter in Hk.
    + eexists; split; [reflexivity|]. cbn [isEmergency detectedKeywords].
      split.
      * split; [|reflexivity]. intros _. exists k. apply Hfilter. now left.
      * intros _. exists (k :: ks). split; [reflexivity | exact Hfilter].
Qed.

End Classifier.

Lemma checkEmergencyKeywords_total_witness :
  is_string VNull = false
  /\ checkEmergencyKeywords ascii_toLowerCase sample_responses VNull None
     = Return no_emergency.
Proof.
  split; [reflexivity|].
  apply (checkEmergencyKeywords_total ascii_toLowerCase sample_responses
           VNull None).
  left. reflexivity.
Defined.

Lemma detectedKeywords_table_order_witness :
  exists r ks,
    checkEmergencyKeywords ascii_toLowerCase sample_responses
      (VString (lit "I have CHEST pain and difficulty breathing")) None
    = Return r
    /\ isEmergency r = true
    /\ detectedKeywords r = Some ks
    /\ sublist ks EMERGENCY_KEYWORDS
    /\ NoDup ks.
Proof.
  destruct (detectedKeywords_table_order ascii_toLowerCase sample_responses
              (lit "I have CHEST pain and difficulty breathing") None)
    as (r & Hr & H).
  assert (He : isEmergency r = true).
  { vm_compute in Hr. injection Hr as <-. reflexivity. }
  destruct (H He) as (ks & Hks & Hsub & Hnodup & _).
  exists r, ks. repeat split; assumption.
Defined.

Lemma ascii_toLowerCase_keywords :
  forall k, In k EMERGENCY_KEYWORDS -> ascii_toLowerCase k = k.
Proof.
  apply List.Forall_forall. apply (bool_decide_unpack _). vm_compute.
  reflexivity.
Qed.

Lemma checkEmergencyKeywords_collects_all_witness :
  ascii_toLowerCase [] = []
  /\ (forall k, In k EMERGENCY_KEYWORDS -> ascii_toLowerCase k = k)
  /\ exists r,
      checkEmergencyKeywords ascii_toLowerCase sample_responses
        (VString (lit "CHEST PAIN")) (Some (lit "en"))
      = Return r
      /\ (isEmergency r = true <->
          exists k,
            In k EMERGENCY_KEYWORDS
            /\ occurs_ignoring_case ascii_toLowerCase k (lit "CHEST PAIN"))
      /\ (isEmergency r = true ->
          exists ks,
            detectedKeywords r = Some ks
            /\ forall k,
                In k ks <->
                In k EMERGENCY_KEYWORDS
                /\ occurs_ignoring_case ascii_toLowerCase k
                     (lit "CHEST PAIN")).
Proof.
  split; [reflexivity|]. split; [exact ascii_toLowerCase_keywords|].
  exact (checkEmergencyKeywords_collects_all ascii_toLowerCase
           sample_responses eq_refl ascii_toLowerCase_keywords
           (lit "CHEST PAIN") (Some (lit "en"))).
Defined.

(** The tests of src/lib/safety.test.ts on English input. *)
Example checkEmergencyKeywords_chest_pain :
  checkEmergencyKeywords ascii_toLowerCase sample_responses
    (VString (lit "CHEST PAIN")) (Some (lit "fr"))
  = Return {| isEmergency := true;
              emergencyResponse := Some (sample_responses en);
              detectedKeywords := Some [lit "chest pain"] |}
  /\ checkEmergencyKeywords ascii_toLowerCase sample_responses
       (VString (lit "I have chest pain and difficulty breathing"))
       (Some (lit "hi"))
     = Return {| isEmergency := true;
                 emergencyResponse := Some (sample_responses hi);
                 detectedKeywords :=
                   Some [lit "chest pain"; lit "difficulty breathing"] |}
  /\ checkEmergencyKeywords ascii_toLowerCase sample_responses
       (VString (lit "I have a mild headache")) (Some (lit "en"))
     = Return no_emergency.
Proof. repeat split; vm_compute; reflexivity. Qed.

End SafetyFacts.

(** ** The Prakriti calculator *)

Module PrakritiFacts.
Import JS Prakriti.
Local Open Scope Q_scope.

(** *** Comparisons *)

Lemma Qltb_true (a b : Q) : Qltb a b = true <-> a < b.
Proof.
  unfold Qltb. rewrite negb_true_iff, <- not_true_iff_false, Qle_bool_iff.
  split; [apply Qnot_le_lt | apply Qlt_not_le].
Qed.

Lemma Qltb_false (a b : Q) : Qltb a b = false <-> b <= a.
Proof. unfold Qltb. now rewrite negb_false_iff, Qle_bool_iff. Qed.

Lemma Qle_bool_false (a b : Q) : Qle_bool a b = false <-> b < a.
Proof.
  rewrite <- not_true_iff_false, Qle_bool_iff.
  split; [apply Qnot_le_lt | apply Qlt_not_le].
Qed.

(** Every boolean test on numbers in the context becomes an inequality. *)
Ltac reflect_tests :=
  repeat match goal with
    | H : Qle_bool _ _ = true |- _ => apply Qle_bool_iff in H
    | H : Qle_bool _ _ = false |- _ => apply Qle_bool_false in H
    | H : Qltb _ _ = true |- _ => apply Qltb_true in H
    | H : Qltb _ _ = false |- _ => apply Qltb_false in H
    end.

(** [Qmax] and [Qmin] are replaced by the argument they pick. *)
Ltac case_max_min :=
  repeat match goal with
    | |- context [Qmax ?a ?b] =>
        let H := fresh in
        pose proof (Q.max_spec a b) as H;
        let m := fresh "m" in
        set (m := Qmax a b) in *; clearbody m; destruct H as [[? ?] | [? ?]]
    | _ : context [Qmax ?a ?b] |- _ =>
        let H := fresh in
        pose proof (Q.max_spec a b) as H;
        let m := fresh "m" in
        set (m := Qmax a b) in *; clearbody m; destruct H as [[? ?] | [? ?]]
    | |- context [Qmin ?a ?b] =>
        let H := fresh in
        pose proof (Q.min_spec a b) as H;
        let m := fresh "m" in
        set (m := Qmin a b) in *; clearbody m; destruct H as [[? ?] | [? ?]]
    | _ : context [Qmin ?a ?b] |- _ =>
        let H := fresh in
        pose proof (Q.min_spec a b) as H;
        let m := fresh "m" in
        set (m := Qmin a b) in *; clearbody m; destruct H as [[? ?] | [? ?]]
    end.

(** *** Classification *)

Lemma determineDoshas_balanced (s : PrakritiScores) :
  (fst (determineDoshas s) = Balanced <->
   Math_max (vata s) (pitta s) (kapha s)
   - Math_min (vata s) (pitta s) (kapha s) <= 10)
  /\ (fst (determineDoshas s) = Balanced -> snd (determineDoshas s) = None).
Proof.
  destruct s as [v p k].
  unfold determineDoshas, Math_max, Math_min, entry.
  cbn [sort sort_insert vata pitta kapha snd fst].
  destruct (Qle_bool (k - p) 0) eqn:Hpk; cbn [sort_insert snd];
    destruct (Qle_bool (p - v) 0) eqn:Hvp; cbn [sort_insert snd nth];
    try destruct (Qle_bool (k - v) 0) eqn:Hvk; cbn [sort_insert snd nth];
    match goal with
    | |- context [Qle_bool (?a - ?b) 10] =>
        destruct (Qle_bool (a - b) 10) eqn:Hbal
    end; cbn [fst snd];
    (split; [split; [intros Hd | intros Hr] | intros Hd]);
    try reflexivity;
    try (repeat match goal with
           | H : context [if ?b then _ else _] |- _ => destruct b
           end; discriminate);
    reflect_tests; case_max_min; first [lra | exfalso; lra].
Qed.

(** *** Validation *)

Lemma out_of_range_test (a : QuizAnswer) :
  Qltb (answer a) 1 || Qltb 5 (answer a) = true <-> out_of_range a.
Proof. unfold out_of_range. now rewrite orb_true_iff, !Qltb_true. Qed.

Lemma accumulate_throws (answers : list QuizAnswer) (acc : PrakritiScores) :
  throws (accumulate answers acc) <-> Exists out_of_range answers.
Proof.
  revert acc. induction answers as [|a rest IH]; intros acc; simpl.
  - split; [intros [e He]; discriminate | intros H; inversion H].
  - destruct (Qltb (answer a) 1 || Qltb 5 (answer a)) eqn:E.
    + apply out_of_range_test in E. split; [now left | now eexists].
    + rewrite IH. split; [now right|].
      intros H. inversion H as [? ? Ha | ]; subst; [|assumption].
      apply out_of_range_test in Ha. congruence.
Qed.

Lemma completion_cases {A : Type} (c : completion A) :
  returns c <-> ~ throws c.
Proof.
  destruct c as [a | e]; split.
  - intros _ [e He]. discriminate.
  - intros _. now exists a.
  - intros [a Ha]. discriminate.
  - intros H. destruct H. now exists e.
Qed.

(** The two guards and the three helpers, in one equation. *)
Lemma calculatePrakriti_unfold (userId : jsstring)
  (answers : list QuizAnswer) (now : jsstring) :
  calculatePrakriti userId answers now
  = match trim userId, answers with
    | [], _ => Throw (Error "userId is required")
    | _ :: _, [] => Throw (Error "At least one answer is required")
    | _ :: _, _ :: _ =>
        let* rawScores := calculateRawScores answers in
        Return {| userId := userId;
                  scores := normalizeScores rawScores;
                  dominant := fst (determineDoshas (normalizeScores rawScores));
                  secondary := snd (determineDoshas (normalizeScores rawScores));
                  assessmentDate := now |}
    end.
Proof.
  unfold calculatePrakriti.
  destruct userId as [|c u]; [reflexivity|].
  cbn [truthy length Nat.eqb negb orb].
  destruct (trim (c :: u)); [reflexivity|].
  destruct answers as [|a rest]; [reflexivity|].
  cbn [length Nat.eqb].
  destruct (calculateRawScores (a :: rest)) as [raw|e]; [|reflexivity].
  cbn [bind]. now destruct (determineDoshas (normalizeScores raw)).
Qed.



(** C7, as the code has it. [calculatePrakriti] throws exactly when the
    user id is empty or consists of white space only, or there is no answer,
    or some answer is below 1 or above 5; on every other input it returns a
    profile. *)
Theorem calculatePrakriti_throws_iff (userId : jsstring)
  (answers : list QuizAnswer) (now : jsstring) :
  (throws (calculatePrakriti userId answers now) <->
   trim userId = [] \/ answers = [] \/ Exists out_of_range answers)
  /\ (returns (calculatePrakriti userId answers now) <->
      ~ (trim userId = [] \/ answers = [] \/ Exists out_of_range answers)).
Proof.
  assert (H : throws (calculatePrakriti userId answers now) <->
              trim userId = [] \/ answers = [] \/ Exists out_of_range answers).
  { rewrite calculatePrakriti_unfold.
    destruct (trim userId) as [|c u]; [split; [now left | now eexists]|].
    destruct answers as [|a rest];
      [split; [now right; left | now eexists]|].
    pose proof (accumulate_throws (a :: rest)
                  {| vata := 0; pitta := 0; kapha := 0 |}) as Hacc.
    fold (calculateRawScores (a :: rest)) in Hacc.
    destruct (calculateRawScores (a :: rest)) as [raw|e]; cbn [bind].
    - split.
      + intros [e He]. discriminate.
      + intros [Hu | [Ha | Hex]]; [discriminate | discriminate |].
        apply Hacc in Hex. destruct Hex as [e He]. discriminate.
    - split; [|now eexists].
      intros _. right; right. apply Hacc. now eexists. }
  split; [exact H|]. now rewrite completion_cases, H.
Qed.

(** C7, as the specification has it, fails on a user id that is a single
    space: it is not empty, the answer is in range, and the call throws. *)
Lemma calculatePrakriti_blank_userId :
  calculatePrakriti (lit " ") [createQuizAnswer 1 3 1 1 1] (lit "")
  = Throw (Error "userId is required")
  /\ lit " " <> []
  /\ [createQuizAnswer 1 3 1 1 1] <> []
  /\ ~ Exists out_of_range [createQuizAnswer 1 3 1 1 1].
Proof.
  split; [reflexivity|]. split; [discriminate|]. split; [discriminate|].
  intros H. inversion H as [? ? [Ha | Ha] | ? ? Ha]; subst.
  - vm_compute in Ha. discriminate.
  - vm_compute in Ha. discriminate.
  - inversion Ha.
Qed.

(** *** Score bounds *)

Lemma accumulate_non_negative (answers : list QuizAnswer)
  (acc raw : PrakritiScores) :
  Forall well_formed answers -> non_negative acc ->
  accumulate answers acc = Return raw -> non_negative raw.
Proof.
  revert acc. induction answers as [|a rest IH]; intros acc Hall Hacc; simpl.
  - now intros [= <-].
  - destruct (Qltb (answer a) 1 || Qltb 5 (answer a)); [discriminate|].
    apply Forall_cons in Hall as [(Ha & Hv & Hp & Hk) Hrest].
    apply IH; [exact Hrest|].
    destruct Hacc as (Av & Ap & Ak).
    assert (H0 : 0 <= answer a) by lra.
    pose proof (Qmult_le_0_compat _ _ H0 Hv).
    pose proof (Qmult_le_0_compat _ _ H0 Hp).
    pose proof (Qmult_le_0_compat _ _ H0 Hk).
    repeat split; cbn [vata pitta kapha]; lra.
Qed.

(** A share of the maximum, as a percentage with two decimals. *)
Lemma percentage_in_range (x m : Q) :
  0 <= x -> x <= m -> 0 < m ->
  0 <= Math_round (x / m * 100 * 100) / 100 <= 100.
Proof.
  intros Hx Hxm Hm.
  assert (H0 : 0 <= x / m) by (apply Qle_shift_div_l; [exact Hm | lra]).
  assert (H1 : x / m <= 1) by (apply Qle_shift_div_r; [exact Hm | lra]).
  set (t := x / m) in *. unfold Math_round.
  assert (Hlo : (0 <= Qfloor (t * 100 * 100 + (1 # 2)))%Z).
  { change 0%Z with (Qfloor 0). apply Qfloor_resp_le. lra. }
  assert (Hhi : (Qfloor (t * 100 * 100 + (1 # 2)) <= 10000)%Z).
  { change 10000%Z with (Qfloor (20001 # 2)). apply Qfloor_resp_le. lra. }
  rewrite Zle_Qle in Hlo, Hhi.
  set (r := inject_Z (Qfloor (t * 100 * 100 + (1 # 2)))) in *.
  change (inject_Z 0) with 0 in Hlo. change (inject_Z 10000) with 10000 in Hhi.
  split.
  - apply Qle_shift_div_l; lra.
  - apply Qle_shift_div_r; lra.
Qed.

Lemma normalizeScores_in_range (raw : PrakritiScores) :
  non_negative raw -> in_range (normalizeScores raw).
Proof.
  destruct raw as [v p k]. intros (Hv & Hp & Hk). cbn [vata pitta kapha] in *.
  unfold normalizeScores. cbn [vata pitta kapha].
  destruct (Qeq_bool (Math_max v p k) 0) eqn:E.
  - unfold in_range. cbn [vata pitta kapha]. lra.
  - apply Qeq_bool_neq in E.
    assert (Hmax : v <= Math_max v p k /\ p <= Math_max v p k
                   /\ k <= Math_max v p k).
    { unfold Math_max. case_max_min; repeat split; lra. }
    destruct Hmax as (Mv & Mp & Mk).
    assert (Hpos : 0 < Math_max v p k).
    { destruct (Qlt_le_dec 0 (Math_max v p k)) as [H|H]; [exact H|].
      exfalso. apply E. lra. }
    repeat split; cbn [vata pitta kapha];
      now apply percentage_in_range.
Qed.



(** The tests of src/lib/prakriti-calculator.test.ts on their inputs. *)
Example calculatePrakriti_tests :
  calculatePrakriti (lit "user-secondary")
    [createQuizAnswer 1 5 1 (9 # 10) (2 # 10);
     createQuizAnswer 2 4 1 (85 # 100) (3 # 10);
     createQuizAnswer 3 5 1 (9 # 10) (1 # 10)] (lit "")
  = Return {| userId := lit "user-secondary";
              scores := {| vata := 10000 # 100;
                           pitta := 8857 # 100;
                           kapha := 1929 # 100 |};
              dominant := Vata;
              secondary := Some Pitta;
              assessmentDate := lit "" |}
  /\ calculatePrakriti [] [createQuizAnswer 1 3 1 1 1] (lit "")
     = Throw (Error "userId is required")
  /\ calculatePrakriti (lit "user-123") [] (lit "")
     = Throw (Error "At least one answer is required")
  /\ calculatePrakriti (lit "user-123") [createQuizAnswer 1 6 1 1 1] (lit "")
     = Throw (ErrorInvalidAnswer 6).
Proof. repeat split; vm_compute; reflexivity. Qed.

End PrakritiFacts.

(** ** Anonymization and its validation *)

Module SentinelFacts.
Import JS Sentinel.
Local Open Scope string_scope.

(** C1. Whatever the report carries, [name], [phone], [email] and
    [fullAddress] included, the record that [anonymizeForSentinel] returns
    has the keys [hashedUserId], [symptomType], [severity], [pincode] and
    [timestamp] and no other, so none of the four identifying keys, and its
    [pincode] is the pincode of the report. *)
Theorem anonymizeForSentinel_keys (sha256_hex : jsstring -> jsstring)
  (report : SymptomReport) (salt : jsstring) :
  dom (anonymizeForSentinel sha256_hex report salt)
  = {[ "hashedUserId"; "symptomType"; "severity"; "pincode"; "timestamp" ]}
  /\ (forall field,
        In field ["name"; "phone"; "email"; "fullAddress"] ->
        anonymizeForSentinel sha256_hex report salt !! field = None)
  /\ anonymizeForSentinel sha256_hex report salt !! "pincode"
     = Some (VString (pincode (location report)))
  /\ anonymizeForSentinel sha256_hex report salt !! "hashedUserId"
     = Some (VString (sha256_hex (userId report ++ salt)%list)).
Proof.
  unfold anonymizeForSentinel. split; [|split; [|split]].
  - rewrite !dom_insert_L, dom_empty_L. set_solver.
  - intros field Hfield. simpl in Hfield.
    destruct Hfield as [<- | [<- | [<- | [<- | []]]]]; reflexivity.
  - reflexivity.
  - reflexivity.
Qed.

Lemma hasOwnProperty_true (data : gmap string value) (field : string) :
  hasOwnProperty data field = true <-> is_Some (data !! field).
Proof. unfold hasOwnProperty. apply bool_decide_eq_true. Qed.

Lemma hasOwnProperty_false (data : gmap string value) (field : string) :
  hasOwnProperty data field = false <-> data !! field = None.
Proof.
  unfold hasOwnProperty. rewrite bool_decide_eq_false.
  symmetry. apply eq_None_not_Some.
Qed.

(** The loop over the forbidden keys stops at the first one the record has. *)
Lemma check_pii_throws (fields : list string) (data : gmap string value) :
  (exists field, In field fields /\ is_Some (data !! field)) ->
  exists field,
    In field fields /\ is_Some (data !! field)
    /\ check_pii fields data = Throw (ErrorPiiField field).
Proof.
  induction fields as [|f rest IH]; intros (field & Hin & Hsome).
  - destruct Hin.
  - simpl. destruct (hasOwnProperty data f) eqn:E.
    + exists f. apply hasOwnProperty_true in E. split; [now left|]. now split.
    + destruct Hin as [-> | Hin].
      * apply hasOwnProperty_false in E. rewrite E in Hsome.
        now destruct Hsome.
      * destruct IH as (g & Hg & Hgs & Hthrow); [now exists field|].
        exists g. split; [now right|]. now split.
Qed.

Lemma check_pii_returns (fields : list string) (data : gmap string value) :
  (forall field, In field fields -> data !! field = None) ->
  check_pii fields data = Return tt.
Proof.
  induction fields as [|f rest IH]; intros Hfree; [reflexivity|].
  simpl. rewrite (proj2 (hasOwnProperty_false data f)).
  - apply IH. intros field Hin. apply Hfree. now right.
  - apply Hfree. now left.
Qed.

(** The length test on a string. *)
Lemma length_test (s : jsstring) :
  strict_equals_number
    (VNumber (inject_Z (Z.of_nat (length s)))) (inject_Z 64)
  = Nat.eqb (length s) 64.
Proof.
  cbn [strict_equals_number]. apply eq_true_iff_eq.
  rewrite Qeq_bool_iff, Nat.eqb_eq, inject_Z_injective. lia.
Qed.

(** The length test on any value whose [length] can be read. *)
Lemma length_test_spec (v len : value) :
  get_length v = Return len ->
  strict_equals_number len (inject_Z 64) = true <-> has_length_64 v.
Proof.
  destruct v as [| |b|q|s|props]; cbn [get_length has_length_64];
    try discriminate; intros [= <-].
  - split; [discriminate | contradiction].
  - split; [discriminate | contradiction].
  - now rewrite length_test, Nat.eqb_eq.
  - destruct (own_property props "length") as [| |b|q|s|o];
      cbn [strict_equals_number];
      try (split; [discriminate | intros (q' & Hq & _); discriminate]).
    rewrite Qeq_bool_iff. split.
    + intros Hq. now exists q.
    + intros (q' & [= <-] & Hq). exact Hq.
Qed.

Lemma truthy_get_length (v : value) :
  truthy v = true -> exists len, get_length v = Return len.
Proof. destruct v; try discriminate; intros _; now eexists. Qed.


(** On a string: the length is compared unless the string is empty. *)
Corollary validateAnonymization_string (data : gmap string value)
  (s : jsstring) :
  pii_free data -> data !! "userId" = Some (VString s) ->
  validateAnonymization data
  = if Nat.eqb (length s) 0 || Nat.eqb (length s) 64
    then Return true else Throw not_hashed.
Proof.
  intros Hfree Hs. unfold validateAnonymization, get_userId.
  rewrite (check_pii_returns piiFields data Hfree), Hs.
  cbn [bind]. change (default VUndefined (Some (VString s))) with (VString s).
  cbn [truthy]. destruct (Nat.eqb (length s) 0); [reflexivity|].
  cbn [negb get_length bind orb]. rewrite length_test.
  now destruct (Nat.eqb (length s) 64).
Qed.



Lemma sample_record_pii_free : pii_free sample_record.
Proof.
  intros field Hfield. simpl in Hfield.
  destruct Hfield as [<- | [<- | [<- | [<- | [<- | []]]]]]; reflexivity.
Qed.



End SentinelFacts.

(** ** Aggregation by region *)

Module AggregationFacts.
Import JS Aggregation.
Local Open Scope Z_scope.

(** *** The map *)

Lemma Map_get_set (m : Map) (key key' : jsstring) (v : Z) :
  Map_get (Map_set m key v) key'
  = if decide (key = key') then Some v else Map_get m key'.
Proof.
  induction m as [|[k w] rest IH]; simpl.
  - destruct (decide (key = key')); reflexivity.
  - destruct (decide (k = key)) as [-> | Hk]; simpl.
    + destruct (decide (key = key')); reflexivity.
    + rewrite IH. destruct (decide (k = key')) as [-> | Hk'];
        [|reflexivity].
      destruct (decide (key = key')); [congruence | reflexivity].
Qed.

Lemma get_or_zero_default (m : Map) (key : jsstring) :
  get_or_zero m key = default 0 (Map_get m key).
Proof.
  unfold get_or_zero. destruct (Map_get m key) as [v|]; [|reflexivity].
  simpl. destruct (Z.eqb_spec v 0); congruence.
Qed.

(** *** The fold *)

Lemma total_not_reported (key : jsstring) (symptoms : list SymptomEntity) :
  reported key symptoms = false -> total key symptoms = 0.
Proof.
  induction symptoms as [|x rest IH]; [reflexivity|]. simpl.
  intros H. apply orb_false_iff in H as [Hx Hrest].
  apply bool_decide_eq_false in Hx.
  destruct (decide (symptomType x = key)); [contradiction | now apply IH].
Qed.

(** What the loop leaves under [key], from any map [m]. *)
Lemma fold_step_get (symptoms : list SymptomEntity) (m : Map)
  (key : jsstring) :
  Map_get (fold_left step symptoms m) key
  = if reported key symptoms
    then Some (default 0 (Map_get m key) + total key symptoms)
    else Map_get m key.
Proof.
  revert m. induction symptoms as [|x rest IH]; intros m; [reflexivity|].
  cbn [fold_left reported existsb total]. rewrite IH. unfold step.
  rewrite Map_get_set, get_or_zero_default.
  destruct (decide (symptomType x = key)) as [Heq | Hne].
  - rewrite bool_decide_eq_true_2 by exact Heq. cbn [orb default].
    rewrite Heq.
    destruct (reported key rest) eqn:E; f_equal; simpl; [lia|].
    rewrite (total_not_reported _ _ E). lia.
  - rewrite bool_decide_eq_false_2 by exact Hne. reflexivity.
Qed.

Lemma aggregate_get (symptoms : list SymptomEntity) (key : jsstring) :
  Map_get (aggregate symptoms) key
  = if reported key symptoms then Some (total key symptoms) else None.
Proof.
  unfold aggregate. rewrite fold_step_get.
  destruct (reported key symptoms); reflexivity.
Qed.

(** *** Order of the records *)

Lemma reported_Permutation (key : jsstring) (l l' : list SymptomEntity) :
  Permutation l l' -> reported key l = reported key l'.
Proof.
  induction 1 as [|x l l' _ IH|x y l|l l' l'' _ IH1 _ IH2]; simpl.
  - reflexivity.
  - now rewrite IH.
  - now rewrite !orb_assoc, (orb_comm (bool_decide _)).
  - now rewrite IH1.
Qed.

Lemma total_Permutation (key : jsstring) (l l' : list SymptomEntity) :
  Permutation l l' -> total key l = total key l'.
Proof.
  induction 1 as [|x l l' _ IH|x y l|l l' l'' _ IH1 _ IH2]; simpl.
  - reflexivity.
  - now rewrite IH.
  - destruct (decide (symptomType x = key)),
      (decide (symptomType y = key)); lia.
  - now rewrite IH1.
Qed.

Lemma filter_Permutation' {A : Type} (f : A -> bool) (l l' : list A) :
  Permutation l l' -> Permutation (List.filter f l) (List.filter f l').
Proof.
  induction 1 as [|x l l' _ IH|x y l|l l' l'' _ IH1 _ IH2]; simpl.
  - constructor.
  - destruct (f x); [now constructor | exact IH].
  - destruct (f x), (f y); try reflexivity. apply perm_swap.
  - now transitivity (List.filter f l').
Qed.

Section Stores.

Variables query_items query_items' : jsstring -> option (list SymptomEntity).

Lemma getSymptomsByRegion_Permutation (pincode : jsstring)
  (startDate endDate : option jsstring) :
  Permutation (default [] (query_items (generateRegionPK pincode)))
    (default [] (query_items' (generateRegionPK pincode))) ->
  Permutation (getSymptomsByRegion query_items pincode startDate endDate)
    (getSymptomsByRegion query_items' pincode startDate endDate).
Proof.
  intros H. unfold getSymptomsByRegion.
  destruct (given startDate || given endDate); [|exact H].
  now apply filter_Permutation'.
Qed.

End Stores.



(** The entries of the map come in the order in which the symptom types
    first occur, so that order, unlike the values, follows the records. *)
Remark aggregate_entry_order :
  aggregate [record "fever" 3; record "cough" 1; record "fever" 2]
  = [(lit "fever", 5); (lit "cough", 1)]
  /\ aggregate [record "cough" 1; record "fever" 2; record "fever" 3]
     = [(lit "cough", 1); (lit "fever", 5)].
Proof. split; vm_compute; reflexivity. Qed.

End AggregationFacts.

(** ** The Prakriti calculator: ranking, scale and errors *)

Module PrakritiRanking.
Import JS Prakriti PrakritiFacts.
Local Open Scope Q_scope.

(** The tests of [determineDoshas] are destructed one after the other. *)
Ltac case_tests :=
  repeat (cbn [sort sort_insert vata pitta kapha snd fst nth andb];
          match goal with
          | |- context [Qle_bool ?a ?b] => destruct (Qle_bool a b) eqn:?
          | |- context [Qltb ?a ?b] => destruct (Qltb a b) eqn:?
          end);
  cbn [sort sort_insert vata pitta kapha snd fst nth andb].

Ltac arith := reflect_tests; case_max_min; first [lra | exfalso; lra].

Lemma determineDoshas_dominant (s : PrakritiScores) :
  let range := Math_max (vata s) (pitta s) (kapha s)
               - Math_min (vata s) (pitta s) (kapha s) in
  (fst (determineDoshas s) = Vata <->
   10 < range /\ pitta s <= vata s /\ kapha s <= vata s)
  /\ (fst (determineDoshas s) = Pitta <->
      10 < range /\ vata s < pitta s /\ kapha s <= pitta s)
  /\ (fst (determineDoshas s) = Kapha <->
      10 < range /\ vata s < kapha s /\ pitta s < kapha s).
Proof.
  destruct s as [v p k].
  unfold determineDoshas, Math_max, Math_min, entry.
  cbv zeta. case_tests;
    repeat split; intros; try discriminate; try reflexivity;
    repeat match goal with H : _ /\ _ |- _ => destruct H end; arith.
Qed.

Lemma determineDoshas_secondary (s : PrakritiScores) :
  (snd (determineDoshas s) <> None <->
   10 < Math_max (vata s) (pitta s) (kapha s)
        - Math_min (vata s) (pitta s) (kapha s)
   /\ Math_max (vata s) (pitta s) (kapha s)
      - median (vata s) (pitta s) (kapha s) <= 15
   /\ Math_min (vata s) (pitta s) (kapha s)
      < median (vata s) (pitta s) (kapha s))
  /\ (forall d,
        snd (determineDoshas s) = Some d ->
        d <> fst (determineDoshas s)
        /\ d <> Balanced
        /\ score_of s d == median (vata s) (pitta s) (kapha s)).
Proof.
  destruct s as [v p k].
  unfold determineDoshas, Math_max, Math_min, median, entry.
  case_tests;
    repeat split; intros; try discriminate; try congruence;
    repeat match goal with
      | H : _ /\ _ |- _ => destruct H
      | H : Some _ = Some _ |- _ => injection H as <-
      end;
    cbn [score_of vata pitta kapha]; arith.
Qed.

Lemma calculatePrakriti_returns (userId : jsstring)
  (answers : list QuizAnswer) (now : jsstring) (profile : PrakritiProfile) :
  calculatePrakriti userId answers now = Return profile ->
  exists raw,
    calculateRawScores answers = Return raw
    /\ trim userId <> []
    /\ answers <> []
    /\ profile = {| userId := userId;
                    scores := normalizeScores raw;
                    dominant := fst (determineDoshas (normalizeScores raw));
                    secondary := snd (determineDoshas (normalizeScores raw));
                    assessmentDate := now |}.
Proof.
  rewrite calculatePrakriti_unfold.
  destruct (trim userId); [discriminate|].
  destruct answers; [discriminate|].
  destruct (calculateRawScores _) as [raw|e]; [|discriminate].
  cbn [bind]. intros [= <-]. exists raw. repeat split; discriminate.
Qed.



(** *** Scale *)

Lemma Math_round_10000 (x : Q) : x == 1 -> Math_round (x * 100 * 100) / 100 == 100.
Proof.
  intros Hx. unfold Math_round.
  assert (H : x * 100 * 100 + (1 # 2) == 20001 # 2) by (rewrite Hx; reflexivity).
  now rewrite H.
Qed.

(** The loop only adds to the scores, and adds a positive amount for an
    answer with a positive weight. *)
Lemma accumulate_grows (answers : list QuizAnswer)
  (acc raw : PrakritiScores) :
  Forall well_formed answers ->
  accumulate answers acc = Return raw ->
  (vata acc <= vata raw /\ pitta acc <= pitta raw /\ kapha acc <= kapha raw)
  /\ (Exists positive_weight answers ->
      vata acc + pitta acc + kapha acc < vata raw + pitta raw + kapha raw).
Proof.
  revert acc. induction answers as [|a rest IH]; intros acc Hall; simpl.
  - intros [= <-]. split; [repeat split; lra|]. intros H. inversion H.
  - destruct (Qltb (answer a) 1 || Qltb 5 (answer a)); [discriminate|].
    apply Forall_cons in Hall as [(Ha & Hv & Hp & Hk) Hrest].
    intros Hraw. destruct (IH _ Hrest Hraw) as ((Gv & Gp & Gk) & Gpos).
    cbn [vata pitta kapha] in *.
    assert (H1 : 1 <= answer a) by lra.
    assert (Mv : vata (doshaWeights a) <= answer a * vata (doshaWeights a))
      by nra.
    assert (Mp : pitta (doshaWeights a) <= answer a * pitta (doshaWeights a))
      by nra.
    assert (Mk : kapha (doshaWeights a) <= answer a * kapha (doshaWeights a))
      by nra.
    split; [repeat split; lra|].
    intros H. inversion H as [? ? Hpos | ? ? Hex]; subst.
    + destruct Hpos as [Hpos | [Hpos | Hpos]]; lra.
    + specialize (Gpos Hex). lra.
Qed.

Lemma accumulate_zero (answers : list QuizAnswer) (acc raw : PrakritiScores) :
  Forall zero_weights answers ->
  accumulate answers acc = Return raw ->
  vata raw == vata acc /\ pitta raw == pitta acc /\ kapha raw == kapha acc.
Proof.
  revert acc. induction answers as [|a rest IH]; intros acc Hall; simpl.
  - intros [= <-]. repeat split; reflexivity.
  - destruct (Qltb (answer a) 1 || Qltb 5 (answer a)); [discriminate|].
    apply Forall_cons in Hall as [(Hv & Hp & Hk) Hrest].
    intros Hraw. destruct (IH _ Hrest Hraw) as (Gv & Gp & Gk).
    cbn [vata pitta kapha] in *.
    rewrite Gv, Gp, Gk, Hv, Hp, Hk. repeat split; ring.
Qed.

Lemma normalizeScores_largest (raw : PrakritiScores) :
  non_negative raw ->
  0 < Math_max (vata raw) (pitta raw) (kapha raw) ->
  Math_max (vata (normalizeScores raw)) (pitta (normalizeScores raw))
    (kapha (normalizeScores raw)) == 100.
Proof.
  intros Hnn Hpos. pose proof (normalizeScores_in_range raw Hnn) as Hin.
  destruct raw as [v p k]. destruct Hnn as (Hv & Hp & Hk).
  unfold normalizeScores, in_range in *. cbn [vata pitta kapha] in *.
  destruct (Qeq_bool (Math_max v p k) 0) eqn:E.
  - apply Qeq_bool_iff in E. lra.
  - cbn [vata pitta kapha] in *. clear E.
    set (m := Math_max v p k) in *.
    assert (Hm : v == m \/ p == m \/ k == m).
    { subst m. unfold Math_max. case_max_min; lra. }
    assert (Hone : forall x, x == m -> Math_round (x / m * 100 * 100) / 100 == 100).
    { intros x Hx. apply Math_round_10000. rewrite Hx.
      apply Qmult_inv_r. lra. }
    destruct Hin as (Iv & Ip & Ik).
    destruct Hm as [Hm | [Hm | Hm]]; apply Hone in Hm;
      unfold Math_max; case_max_min; lra.
Qed.


(** *** Which error *)

Lemma accumulate_first_invalid (valid rest : list QuizAnswer)
  (a : QuizAnswer) (acc : PrakritiScores) :
  Forall (fun b => ~ out_of_range b) valid ->
  out_of_range a ->
  accumulate (valid ++ a :: rest) acc = Throw (ErrorInvalidAnswer (answer a)).
Proof.
  intros Hvalid Ha. revert acc.
  induction valid as [|b valid IH]; intros acc; simpl.
  - now rewrite (proj2 (out_of_range_test a) Ha).
  - apply Forall_cons in Hvalid as [Hb Hvalid].
    destruct (Qltb (answer b) 1 || Qltb 5 (answer b)) eqn:E.
    + apply out_of_range_test in E. contradiction.
    + now apply IH.
Qed.

(** X4. The user id is checked first, then the presence of an answer, then
    the answers in order: the error names the first answer out of range,
    whatever follows it. *)
Theorem calculatePrakriti_first_error (userId : jsstring)
  (answers : list QuizAnswer) (now : jsstring) :
  (trim userId = [] ->
   calculatePrakriti userId answers now = Throw (Error "userId is required"))
  /\ (trim userId <> [] -> answers = [] ->
      calculatePrakriti userId answers now
      = Throw (Error "At least one answer is required"))
  /\ (trim userId <> [] ->
      forall valid a rest,
        answers = valid ++ a :: rest ->
        Forall (fun b => ~ out_of_range b) valid ->
        out_of_range a ->
        calculatePrakriti userId answers now
        = Throw (ErrorInvalidAnswer (answer a))).
Proof.
  rewrite calculatePrakriti_unfold. repeat split.
  - now intros ->.
  - intros Hu ->. now destruct (trim userId).
  - intros Hu valid a rest -> Hvalid Ha.
    destruct (trim userId); [contradiction|].
    unfold calculateRawScores. rewrite accumulate_first_invalid by assumption.
    now destruct valid.
Qed.




Lemma calculatePrakriti_first_error_witness :
  trim (lit " user-123 ") <> []
  /\ ~ out_of_range (createQuizAnswer 1 5 1 1 1)
  /\ out_of_range (createQuizAnswer 2 6 1 1 1)
  /\ calculatePrakriti (lit " user-123 ")
       [createQuizAnswer 1 5 1 1 1; createQuizAnswer 2 6 1 1 1;
        createQuizAnswer 3 0 1 1 1] (lit "")
     = Throw (ErrorInvalidAnswer 6).
Proof.
  assert (Hu : trim (lit " user-123 ") <> []) by (vm_compute; discriminate).
  assert (H5 : ~ out_of_range (createQuizAnswer 1 5 1 1 1)).
  { intros [H | H]; vm_compute in H; discriminate. }
  assert (H6 : out_of_range (createQuizAnswer 2 6 1 1 1)).
  { right. reflexivity. }
  split; [exact Hu|]. split; [exact H5|]. split; [exact H6|].
  apply (proj2 (proj2 (calculatePrakriti_first_error (lit " user-123 ")
                         [createQuizAnswer 1 5 1 1 1;
                          createQuizAnswer 2 6 1 1 1;
                          createQuizAnswer 3 0 1 1 1] (lit ""))) Hu
           [createQuizAnswer 1 5 1 1 1] (createQuizAnswer 2 6 1 1 1)
           [createQuizAnswer 3 0 1 1 1]).
  - reflexivity.
  - constructor; [exact H5 | constructor].
  - exact H6.
Defined.

End PrakritiRanking.

(** ** The emergency classifier: shape of the result and language *)

Module SafetyShape.
Import JS JSFacts Safety SafetyFacts.

#[local] Opaque EMERGENCY_KEYWORDS.

Lemma response_key_code (language : jsstring) (l : Language) :
  response_key language = Some l <-> language = code l.
Proof.
  unfold response_key.
  repeat case_decide; subst; destruct l; cbn [code];
    split; intros Hkey; try reflexivity; try discriminate;
    try congruence.
Qed.

Lemma response_key_None (language : jsstring) :
  response_key language = None <-> forall l, language <> code l.
Proof.
  split.
  - intros H l Hl. apply response_key_code in Hl. congruence.
  - intros H. destruct (response_key language) as [l|] eqn:E; [|reflexivity].
    apply response_key_code in E. now destruct (H l).
Qed.

Section Classifier.

Variable toLowerCase : jsstring -> jsstring.
Variable EMERGENCY_RESPONSES : Language -> jsstring.

Local Abbreviation classify :=
  (checkEmergencyKeywords toLowerCase EMERGENCY_RESPONSES).

Lemma select_response_canned (language : jsstring) :
  exists l, select_response EMERGENCY_RESPONSES language = EMERGENCY_RESPONSES l.
Proof.
  unfold select_response. destruct (response_key language) as [l|].
  - destruct (truthy _); [now exists l | now exists en].
  - now exists en.
Qed.

(** What the classifier returns, on any value. *)
Lemma classify_cases (input : value) (language : option jsstring) :
  classify input language = Return no_emergency
  \/ exists s ks,
      input = VString s /\ s <> [] /\ ks <> []
      /\ ks = List.filter (hit toLowerCase (trim (toLowerCase s)))
                EMERGENCY_KEYWORDS
      /\ classify input language
         = Return {| isEmergency := true;
                     emergencyResponse :=
                       Some (select_response EMERGENCY_RESPONSES
                               (default (lit "en") language));
                     detectedKeywords := Some ks |}.
Proof.
  destruct input as [| |b|q|s|props].
  1-4, 6: left; unfold checkEmergencyKeywords;
    cbn [truthy is_string negb orb]; now rewrite ?orb_true_r.
  rewrite classify_string. destruct s as [|c s]; [now left|].
  destruct (List.filter _ EMERGENCY_KEYWORDS) as [|k ks] eqn:E; [now left|].
  right. exists (c :: s), (k :: ks). repeat split; try discriminate.
  now rewrite E.
Qed.



End Classifier.


End SafetyShape.

(** ** The chat route *)

Module ChatFacts.
Import JS JSFacts Safety SafetyFacts SafetyShape Chat.

#[local] Opaque EMERGENCY_KEYWORDS.

Lemma get_property_field (body : value) (key : string) :
  body <> VNull -> body <> VUndefined ->
  get_property body key = Return (field body key).
Proof. now destruct body. Qed.

Lemma get_optional_pincode (body : value) :
  exists pincode,
    get_optional (field body "location") "pincode" = Return pincode
    /\ logged_region body
       = if truthy pincode then pincode else VString (lit "unknown").
Proof.
  unfold logged_region.
  destruct (field body "location"); eexists; split; reflexivity.
Qed.

Section Handler.

Variable toLowerCase : jsstring -> jsstring.
Variable EMERGENCY_RESPONSES : Language -> jsstring.
Variable ToPropertyKey : value -> jsstring.

Local Abbreviation POST :=
  (Chat.POST toLowerCase EMERGENCY_RESPONSES ToPropertyKey).
Local Abbreviation classify :=
  (checkEmergencyKeywords toLowerCase EMERGENCY_RESPONSES).
Local Abbreviation language_of :=
  (fun body => language_argument ToPropertyKey (field body "language")).

(** The handler on a body that is not [null]: one equation per branch. *)
Lemma POST_body (body : value) (now : jsstring) :
  body <> VNull -> body <> VUndefined ->
  POST (Return body) now
  = if negb (truthy (field body "userId"))
       || negb (truthy (field body "query"))
    then (invalid_request, [])
    else
      match classify (field body "query") (language_of body) with
      | Return safetyCheck =>
          if Safety.isEmergency safetyCheck then
            (emergency safetyCheck,
             [Warn "[EMERGENCY DETECTED]"
                {| timestamp := now;
                   keywords := default [] (detectedKeywords safetyCheck);
                   region := logged_region body |}])
          else (placeholder, [])
      | Throw error =>
          (internal_error, [ConsoleError "[Chat API Error]" error])
      end.
Proof.
  intros Hnull Hundef. unfold Chat.POST, try_block. cbn [bind].
  rewrite !get_property_field by assumption. cbn [bind].
  destruct (negb (truthy (field body "userId"))
            || negb (truthy (field body "query"))); [reflexivity|].
  destruct (classify _ _) as [safetyCheck|error]; cbn [bind]; [|reflexivity].
  destruct (Safety.isEmergency safetyCheck); [|reflexivity].
  destruct (get_optional_pincode body) as (pincode & -> & ->).
  reflexivity.
Qed.


Hypothesis toLowerCase_keywords :
  forall k, In k EMERGENCY_KEYWORDS -> toLowerCase k = k.


End Handler.



End ChatFacts.

(** ** Anonymization: order of the checks and composition *)

Module SentinelMore.
Import JS Sentinel SentinelFacts.
Local Open Scope string_scope.

Lemma check_pii_first (before after : list string) (field : string)
  (data : gmap string value) :
  (forall f, In f before -> data !! f = None) ->
  is_Some (data !! field) ->
  check_pii (before ++ field :: after) data = Throw (ErrorPiiField field).
Proof.
  intros Hbefore Hfield. induction before as [|f before IH]; simpl.
  - now rewrite (proj2 (hasOwnProperty_true data field) Hfield).
  - rewrite (proj2 (hasOwnProperty_false data f)) by (apply Hbefore; now left).
    apply IH. intros g Hg. apply Hbefore. now right.
Qed.



(** X10. A record that [anonymizeForSentinel] returns always passes
    [validateAnonymization], whatever the digest function returns: the
    record has no [userId] property, so no length is compared.  And two
    reports with the same user id, symptom type, severity, pincode and
    timestamp give the same record, whatever their [name], [phone],
    [email], [fullAddress] and [state]. *)
Theorem anonymized_record_passes (sha256_hex : jsstring -> jsstring)
  (report : SymptomReport) (salt : jsstring) :
  validateAnonymization (anonymizeForSentinel sha256_hex report salt)
  = Return true
  /\ anonymizeForSentinel sha256_hex report salt !! "userId" = None
  /\ (forall report',
        same_signal report report' ->
        anonymizeForSentinel sha256_hex report salt
        = anonymizeForSentinel sha256_hex report' salt).
Proof.
  split; [|split].
  - unfold validateAnonymization.
    rewrite check_pii_returns.
    + reflexivity.
    + intros field Hfield. simpl in Hfield.
      destruct Hfield as [<- | [<- | [<- | [<- | [<- | []]]]]]; reflexivity.
  - reflexivity.
  - intros report' (Hu & Ht & Hs & Hp & Hts). unfold anonymizeForSentinel.
    now rewrite Hu, Ht, Hs, Hp, Hts.
Qed.

End SentinelMore.

(** ** Aggregation: the date filter and the shape of the map *)

Module AggregationMore.
Import JS Aggregation AggregationFacts.
Local Open Scope Z_scope.

(** *** Comparison of strings *)

Lemma str_lt_irrefl (a : jsstring) : str_lt a a = false.
Proof.
  induction a as [|x a IH]; [reflexivity|]. simpl.
  now rewrite N.ltb_irrefl, N.eqb_refl, IH.
Qed.

(** Two strings of which neither is below the other are equal. *)
Lemma str_lt_total (a b : jsstring) :
  str_lt a b = false -> str_lt b a = false -> a = b.
Proof.
  revert b. induction a as [|x a IH]; intros [|y b]; simpl;
    try discriminate; [reflexivity|].
  intros Hab Hba.
  apply orb_false_iff in Hab as [Hxy Hab].
  apply orb_false_iff in Hba as [Hyx Hba].
  apply N.ltb_ge in Hxy, Hyx.
  assert (x = y) as -> by lia.
  rewrite N.eqb_refl in Hab, Hba. simpl in Hab, Hba.
  f_equal. now apply IH.
Qed.

(** *** The date filter *)

Section Store.

Variable query_items : jsstring -> option (list SymptomEntity).

Local Abbreviation items_of pincode :=
  (default [] (query_items (generateRegionPK pincode))).

Lemma bound_test (d : option jsstring) (test : jsstring -> bool) :
  given d && test (default [] d) = false
  <-> forall s, d = Some s -> s <> [] -> test s = false.
Proof.
  destruct d as [[|c s]|]; cbn [given truthy length Nat.eqb negb andb
                                  default from_option id].
  - split; [|reflexivity]. intros _ s [= <-] H. contradiction.
  - split; [intros H s' [= <-] _; exact H|].
    intros H. apply (H (c :: s)); [reflexivity | discriminate].
  - split; [discriminate | reflexivity].
Qed.

(** X11. [getSymptomsByRegion] keeps, in their order, the items whose date is
    not below a start date that is given and not empty, and not above such
    an end date; a date that is omitted or empty bounds nothing, and an
    answer without items gives the empty list. *)
Theorem getSymptomsByRegion_range (pincode : jsstring)
  (startDate endDate : option jsstring) :
  sublist (getSymptomsByRegion query_items pincode startDate endDate)
    (items_of pincode)
  /\ (forall item,
        In item (getSymptomsByRegion query_items pincode startDate endDate)
        <-> In item (items_of pincode)
            /\ (forall s, startDate = Some s -> s <> [] ->
                          str_lt (date item) s = false)
            /\ (forall e, endDate = Some e -> e <> [] ->
                          str_lt e (date item) = false))
  /\ (query_items (generateRegionPK pincode) = None ->
      getSymptomsByRegion query_items pincode startDate endDate = []).
Proof.
  unfold getSymptomsByRegion. split; [|split].
  - destruct (given startDate || given endDate);
      [apply SafetyFacts.filter_sublist | reflexivity].
  - intros item.
    rewrite <- (bound_test startDate (fun s => str_lt (date item) s)).
    rewrite <- (bound_test endDate (fun e => str_lt e (date item))).
    destruct (given startDate || given endDate) eqn:Hany.
    + rewrite filter_In.
      destruct (given startDate && str_lt (date item) (default [] startDate));
        destruct (given endDate && str_lt (default [] endDate) (date item));
        intuition discriminate.
    + apply orb_false_iff in Hany as [-> ->]. cbn [andb]. intuition.
  - intros ->. cbn [default from_option id].
    now destruct (given startDate || given endDate).
Qed.

(** X12. [aggregateSymptomsByRegion] counts the records of exactly the date it
    is given; given the empty string as date it counts the records of
    every date. *)
Theorem aggregateSymptomsByRegion_date (pincode date' key : jsstring) :
  (date' <> [] ->
   Map_get (aggregateSymptomsByRegion query_items pincode date') key
   = Map_get
       (aggregate
          (List.filter (fun item => bool_decide (date item = date'))
             (items_of pincode))) key)
  /\ (date' = [] ->
      aggregateSymptomsByRegion query_items pincode date'
      = aggregate (items_of pincode)).
Proof.
  unfold aggregateSymptomsByRegion, getSymptomsByRegion. split.
  - intros Hne.
    assert (Hg : given (Some date') = true)
      by (destruct date'; [contradiction | reflexivity]).
    rewrite Hg. cbn [orb andb default from_option id].
    f_equal. f_equal. apply List.filter_ext. intros item.
    destruct (str_lt (date item) date') eqn:E1.
    + symmetry. apply bool_decide_eq_false. intros Heq.
      rewrite Heq, str_lt_irrefl in E1. discriminate.
    + destruct (str_lt date' (date item)) eqn:E2.
      * symmetry. apply bool_decide_eq_false. intros Heq.
        rewrite Heq, str_lt_irrefl in E2. discriminate.
      * symmetry. apply bool_decide_eq_true. now apply str_lt_total.
  - intros ->. reflexivity.
Qed.

End Store.

(** *** The entries *)

Lemma keys_Map_set (m : Map) (key : jsstring) (v : Z) :
  keys (Map_set m key v)
  = if bool_decide (key ∈ keys m) then keys m else keys m ++ [key].
Proof.
  induction m as [|[k w] rest IH]; [reflexivity|].
  cbn [Map_set]. destruct (decide (k = key)) as [-> | Hne].
  - unfold keys. cbn [List.map fst].
    rewrite bool_decide_eq_true_2; [reflexivity | constructor].
  - unfold keys in *. cbn [List.map fst]. rewrite IH.
    destruct (bool_decide (key ∈ List.map fst rest)) eqn:E.
    + apply bool_decide_eq_true in E.
      rewrite bool_decide_eq_true_2; [reflexivity | now constructor].
    + apply bool_decide_eq_false in E.
      rewrite bool_decide_eq_false_2; [reflexivity|].
      intros H. apply elem_of_cons in H as [-> | H]; contradiction.
Qed.

Lemma filter_twice {A : Type} (f g : A -> bool) (l : list A) :
  List.filter f (List.filter g l) = List.filter (fun x => g x && f x) l.
Proof.
  induction l as [|x l IH]; [reflexivity|]. simpl.
  destruct (g x); simpl; [destruct (f x)|]; now rewrite IH.
Qed.

(** The keys that the loop leaves, from any map [m]. *)
Lemma fold_step_keys (symptoms : list SymptomEntity) (m : Map) :
  keys (fold_left step symptoms m)
  = keys m
    ++ List.filter (fun k => negb (bool_decide (k ∈ keys m)))
         (distinct (List.map symptomType symptoms)).
Proof.
  revert m. induction symptoms as [|x rest IH]; intros m.
  - simpl. now rewrite app_nil_r.
  - cbn [fold_left List.map distinct List.filter]. rewrite IH.
    unfold step. rewrite (keys_Map_set m (symptomType x)).
    destruct (bool_decide (symptomType x ∈ keys m)) eqn:E; cbn [negb].
    + apply bool_decide_eq_true in E. f_equal.
      rewrite filter_twice. apply List.filter_ext. intros k.
      destruct (bool_decide (k ∈ keys m)) eqn:Ek; cbn [negb];
        [now rewrite andb_false_r|].
      rewrite andb_true_r. symmetry. apply negb_true_iff.
      apply bool_decide_eq_false. intros ->.
      apply bool_decide_eq_false in Ek. contradiction.
    + rewrite <- app_assoc. cbn [app]. f_equal. f_equal.
      rewrite filter_twice. apply List.filter_ext. intros k. f_equal.
      apply bool_decide_eq_false in E.
      destruct (decide (k = symptomType x)) as [-> | Hk].
      * rewrite (bool_decide_eq_true_2 (symptomType x = symptomType x))
          by reflexivity.
        rewrite (bool_decide_eq_true_2
                   (symptomType x ∈ keys m ++ [symptomType x]))
          by (apply elem_of_app; right; constructor).
        reflexivity.
      * rewrite (bool_decide_eq_false_2 (k = symptomType x)) by exact Hk.
        cbn [negb andb]. f_equal. apply bool_decide_ext.
        rewrite elem_of_app, list_elem_of_singleton. tauto.
Qed.

Lemma distinct_spec (l : list jsstring) :
  NoDup (distinct l) /\ forall k, k ∈ distinct l <-> k ∈ l.
Proof.
  induction l as [|x l [IHn IHe]]; [split; [constructor | reflexivity]|].
  cbn [distinct]. split.
  - constructor.
    + rewrite list_elem_of_In, filter_In, bool_decide_eq_true_2 by reflexivity.
      intros [_ H]. discriminate.
    + apply NoDup_ListNoDup. apply List.NoDup_filter.
      now apply NoDup_ListNoDup.
  - intros k. rewrite !elem_of_cons, list_elem_of_In, filter_In,
      <- list_elem_of_In, IHe.
    destruct (decide (k = x)) as [-> | Hk].
    + tauto.
    + rewrite bool_decide_eq_false_2 by exact Hk. cbn [negb]. tauto.
Qed.

(** X13. The map has one entry for each symptom type of the records, in the
    order in which the types first occur. *)
Theorem aggregate_keys (symptoms : list SymptomEntity) :
  keys (aggregate symptoms) = distinct (List.map symptomType symptoms)
  /\ NoDup (keys (aggregate symptoms))
  /\ (forall key,
        key ∈ keys (aggregate symptoms)
        <-> exists symptom, symptom ∈ symptoms /\ symptomType symptom = key).
Proof.
  assert (H : keys (aggregate symptoms)
              = distinct (List.map symptomType symptoms)).
  { unfold aggregate. rewrite fold_step_keys. cbn [keys List.map app].
    rewrite <- (List.filter_ext (fun _ => true)); [|reflexivity].
    clear. induction (distinct _) as [|k l IH]; [reflexivity|].
    simpl. now rewrite IH. }
  destruct (distinct_spec (List.map symptomType symptoms)) as [Hn He].
  rewrite H. split; [reflexivity|]. split; [exact Hn|].
  intros key. rewrite He, list_elem_of_In, in_map_iff.
  split; intros (symptom & H1 & H2); exists symptom.
  - split; [now apply list_elem_of_In | exact H1].
  - split; [exact H2 | now apply list_elem_of_In].
Qed.

Lemma sum_values_Map_set (m : Map) (key : jsstring) (c : Z) :
  sum_values (Map_set m key (get_or_zero m key + c)) = sum_values m + c.
Proof.
  rewrite get_or_zero_default. unfold sum_values.
  induction m as [|[k w] rest IH]; cbn [Map_set Map_get]; simpl; [lia|].
  destruct (decide (k = key)); simpl; [lia|]. rewrite IH. lia.
Qed.


End AggregationMore.


(** ** Keys, queries and batches *)

Module DynamoFacts.
Import JS JSFacts Dynamo.
Local Open Scope string_scope.

(** *** Literals *)

Lemma lit_inj (a b : string) : lit a = lit b -> a = b.
Proof.
  unfold lit. revert b. induction a as [|c a IH]; intros [|d b]; simpl;
    try discriminate; [reflexivity|].
  intros [= Hc Hrest]. f_equal; [|now apply IH].
  rewrite <- (ascii_N_embedding c), <- (ascii_N_embedding d). now rewrite Hc.
Qed.

(** *** [buildQuery] *)

Section Table.

Variable env_DYNAMODB_TABLE_NAME : option jsstring.

Local Abbreviation buildQuery := (Dynamo.buildQuery env_DYNAMODB_TABLE_NAME).

(** The clauses that [sk_clause] can give. *)
Lemma sk_clause_cases (options : QueryBuilderOptions) :
  (sk_clause options = ([], ∅) /\ ~ sk_condition_applies options)
  \/ (sk_condition_applies options
      /\ ((exists s,
              snd (sk_clause options) = {[ ":sk" := VString s ]}
              /\ In (fst (sk_clause options))
                   [lit " AND begins_with(SK, :sk)"; lit " AND SK = :sk";
                    lit " AND SK > :sk"; lit " AND SK < :sk"])
          \/ (exists first second,
                 sk_clause options
                 = (lit " AND SK BETWEEN :sk1 AND :sk2",
                    <[":sk2" := VString second]>
                      {[ ":sk1" := VString first ]})))).
Proof.
  unfold sk_clause, sk_condition_applies.
  destruct (sk options) as [s|];
    [|left; split; [reflexivity | intros (? & ? & [=] & _)]].
  destruct (skCondition options) as [condition|];
    [|left; split; [reflexivity | intros (? & ? & _ & _ & [=] & _)]].
  destruct s as [|c s]; cbn [truthy length Nat.eqb negb].
  { left. split; [reflexivity|]. intros (? & ? & [= <-] & H & _).
    contradiction. }
  destruct condition.
  - right. split.
    + exists (c :: s), begins_with. repeat split; discriminate.
    + left. exists (c :: s). split; [reflexivity|]. cbn. tauto.
  - destruct (skValue options) as [[v | [|first [|second [|third items]]]]|];
      try (left; split; [reflexivity|];
           intros (? & ? & _ & _ & [= <-] & H);
           destruct (H eq_refl) as (? & ? & [=])).
    right. split.
    + exists (c :: s), between. repeat split; try discriminate.
      intros _. now exists first, second.
    + right. now exists first, second.
  - right. split.
    + exists (c :: s), equals. repeat split; discriminate.
    + left. exists (c :: s). split; [reflexivity|]. cbn. tauto.
  - right. split.
    + exists (c :: s), greater_than. repeat split; discriminate.
    + left. exists (c :: s). split; [reflexivity|]. cbn. tauto.
  - right. split.
    + exists (c :: s), less_than. repeat split; discriminate.
    + left. exists (c :: s). split; [reflexivity|]. cbn. tauto.
Qed.

(** X15. Every placeholder of the key condition that [buildQuery] writes is
    bound in the attribute values; and without a filter, nothing else is
    bound. *)
Theorem buildQuery_placeholders (options : QueryBuilderOptions) :
  (forall name,
      In name (placeholders (KeyConditionExpression (buildQuery options))) ->
      exists key,
        name = lit key
        /\ is_Some (ExpressionAttributeValues (buildQuery options) !! key))
  /\ (filter_applied options = None ->
      forall key,
        is_Some (ExpressionAttributeValues (buildQuery options) !! key) ->
        In (lit key)
          (placeholders (KeyConditionExpression (buildQuery options)))).
Proof.
  unfold Dynamo.buildQuery.
  cbn [KeyConditionExpression ExpressionAttributeValues].
  assert (Hunion : forall (f b : gmap string value) key,
             is_Some (b !! key) -> is_Some ((f ∪ b) !! key)).
  { intros f b key [v Hv]. destruct (f !! key) as [w|] eqn:E.
    - exists w. now apply lookup_union_Some_l.
    - exists v. rewrite lookup_union_r; assumption. }
  assert (Hbound : forall (b : gmap string value) key,
             is_Some (b !! key) ->
             is_Some (match filter_applied options with
                      | Some (_, values) => values ∪ b
                      | None => b
                      end !! key)).
  { intros b key H. destruct (filter_applied options) as [[e f]|];
      [now apply Hunion | exact H]. }
  destruct (sk_clause_cases options)
    as [[-> _] | [_ [(s & Hs & Hin) | (first & second & ->)]]].
  - cbn [fst snd]. split.
    + intros name [<- | []]. exists ":pk". split; [reflexivity|].
      apply Hbound. rewrite (left_id_L ∅ (∪)). now eexists.
    + intros -> key. rewrite (left_id_L ∅ (∪)). intros Hkey.
      apply lookup_singleton_is_Some in Hkey. subst key. now left.
  - rewrite Hs. cbn [In] in Hin.
    assert (Hp : placeholders
                   (lit "PK = :pk" ++ fst (sk_clause options))%list
                 = [lit ":pk"; lit ":sk"]).
    { destruct Hin as [<- | [<- | [<- | [<- | []]]]];
        vm_compute; reflexivity. }
    rewrite Hp. split.
    + intros name [<- | [<- | []]].
      * exists ":pk". split; [reflexivity|]. apply Hbound. now eexists.
      * exists ":sk". split; [reflexivity|]. apply Hbound. now eexists.
    + intros ->. intros key Hkey. apply elem_of_dom in Hkey.
      rewrite dom_union_L, !dom_singleton_L in Hkey.
      rewrite elem_of_union, !elem_of_singleton in Hkey.
      destruct Hkey as [-> | ->]; cbn; tauto.
  - cbn [fst snd].
    assert (Hp : placeholders
                   (lit "PK = :pk" ++ lit " AND SK BETWEEN :sk1 AND :sk2")%list
                 = [lit ":pk"; lit ":sk1"; lit ":sk2"])
      by (vm_compute; reflexivity).
    rewrite Hp. split.
    + intros name [<- | [<- | [<- | []]]].
      * exists ":pk". split; [reflexivity|]. apply Hbound. now eexists.
      * exists ":sk1". split; [reflexivity|]. apply Hbound. now eexists.
      * exists ":sk2". split; [reflexivity|]. apply Hbound. now eexists.
    + intros ->. intros key Hkey. apply elem_of_dom in Hkey.
      rewrite dom_union_L, dom_insert_L, !dom_singleton_L in Hkey.
      rewrite !elem_of_union, !elem_of_singleton in Hkey.
      destruct Hkey as [[-> | ->] | ->]; cbn; tauto.
Qed.

(** X16. The query is on the partition key alone exactly when the sort key
    condition is not applied: when [sk] is omitted or empty, when no
    condition is named, or when the condition is [between] and [skValue] is
    not an array of two.  The request for such a condition is dropped
    without an error. *)
Theorem buildQuery_partition_only (options : QueryBuilderOptions) :
  KeyConditionExpression (buildQuery options) = lit "PK = :pk"
  <-> ~ sk_condition_applies options.
Proof.
  unfold Dynamo.buildQuery. cbn [KeyConditionExpression].
  destruct (sk_clause_cases options)
    as [[-> Hno] | [Hyes [(s & _ & Hin) | (first & second & ->)]]].
  - cbn [fst]. rewrite app_nil_r. tauto.
  - split; [|contradiction]. intros H. exfalso.
    apply (f_equal (@length N)) in H. rewrite length_app in H.
    cbn [In] in Hin.
    destruct Hin as [E | [E | [E | [E | []]]]]; rewrite <- E in H;
      vm_compute in H; discriminate.
  - split; [|contradiction]. intros H. vm_compute in H. discriminate.
Qed.

(** X17. Without a filter, [:pk] is bound to [options.pk].  With a filter,
    every value of [filterValues] is bound under its name, also under [:pk] and
    [:sk], in place of the key of the options; the names that
    [filterValues] does not have keep their binding. *)
Theorem buildQuery_bindings (options : QueryBuilderOptions) :
  (filter_applied options = None ->
   ExpressionAttributeValues (buildQuery options) !! ":pk"
   = Some (VString (pk options)))
  /\ (forall expression values,
        filter_applied options = Some (expression, values) ->
        FilterExpression (buildQuery options) = Some expression
        /\ (forall key v,
              values !! key = Some v ->
              ExpressionAttributeValues (buildQuery options) !! key = Some v)
        /\ (values !! ":pk" = None ->
            ExpressionAttributeValues (buildQuery options) !! ":pk"
            = Some (VString (pk options)))).
Proof.
  unfold Dynamo.buildQuery.
  cbn [ExpressionAttributeValues FilterExpression].
  assert (Hpk : (snd (sk_clause options) ∪ {[ ":pk" := VString (pk options) ]})
                  !! ":pk" = Some (VString (pk options))).
  { destruct (sk_clause_cases options)
      as [[-> _] | [_ [(s & -> & _) | (first & second & ->)]]];
      reflexivity. }
  split.
  - intros ->. exact Hpk.
  - intros expression values ->. cbn [option_map fst].
    split; [reflexivity|]. split.
    + intros key v Hv. now apply lookup_union_Some_l.
    + intros Hnone. now rewrite lookup_union_r.
Qed.

(** X18. Every placeholder of the key condition of [getSymptomsByType] is bound
    and nothing else is, whichever of the two dates are given; a date that
    is the empty string counts as omitted. *)
Theorem getSymptomsByType_placeholders (symptomType : jsstring)
  (startDate endDate : option jsstring) (key : string) :
  is_Some
    (ExpressionAttributeValues
       (getSymptomsByType_command env_DYNAMODB_TABLE_NAME symptomType
          startDate endDate) !! key)
  <-> In (lit key)
        (placeholders
           (KeyConditionExpression
              (getSymptomsByType_command env_DYNAMODB_TABLE_NAME symptomType
                 startDate endDate))).
Proof.
  unfold getSymptomsByType_command.
  destruct (truthy (VString (or_else startDate []))),
    (truthy (VString (or_else endDate [])));
    cbn [andb KeyConditionExpression ExpressionAttributeValues];
    match goal with
    | |- context [placeholders ?e] =>
        let p := eval vm_compute in (placeholders e) in
        change (placeholders e) with p
    end;
    rewrite <- elem_of_dom, ?dom_union_L, ?dom_insert_L, ?dom_singleton_L,
      ?dom_empty_L, !elem_of_union, ?elem_of_singleton, ?elem_of_empty;
    cbn [In];
    change [58; 103; 115; 105; 49; 112; 107]%N with (lit ":gsi1pk");
    change [58; 115; 116; 97; 114; 116; 68; 97; 116; 101]%N
      with (lit ":startDate");
    change [58; 101; 110; 100; 68; 97; 116; 101]%N with (lit ":endDate");
    split; intros H;
    repeat match goal with
      | H : _ \/ _ |- _ => destruct H
      | H : False |- _ => destruct H
      | H : lit _ = lit _ |- _ => apply lit_inj in H
      end; subst; tauto.
Qed.

End Table.

(** *** Keys *)

Lemma split_at_separator (a a' b b' : jsstring) :
  plain a -> plain a' ->
  (a ++ 35%N :: b = a' ++ 35%N :: b')%list -> a = a' /\ b = b'.
Proof.
  revert a'. induction a as [|x a IH]; intros [|y a'] Ha Ha'; simpl.
  - intros [= ->]. now split.
  - intros [= <- _]. destruct Ha'. now left.
  - intros [= -> _]. destruct Ha. now left.
  - intros [= -> H].
    destruct (IH a') as [-> ->]; trivial.
    + intros Hin. apply Ha. now right.
    + intros Hin. apply Ha'. now right.
    + now split.
Qed.

(** X19. The sort key of a symptom determines the symptom type and the date,
    for symptom types without [#]. *)
Theorem generateSymptomSK_injective (symptomType symptomType' date date'
  : jsstring) :
  plain symptomType -> plain symptomType' ->
  generateSymptomSK symptomType date = generateSymptomSK symptomType' date' ->
  symptomType = symptomType' /\ date = date'.
Proof.
  intros Ht Ht' H. unfold generateSymptomSK in H.
  apply app_inv_head in H. now apply split_at_separator.
Qed.

Lemma generateSymptomSK_injective_witness :
  plain (lit "fever") /\ plain (lit "fever")
  /\ generateSymptomSK (lit "fever") (lit "2026-02-01")
     = generateSymptomSK (lit "fever") (lit "2026-02-01")
  /\ lit "fever" = lit "fever" /\ lit "2026-02-01" = lit "2026-02-01".
Proof.
  assert (Hp : plain (lit "fever")).
  { intros Hin. vm_compute in Hin. intuition discriminate. }
  split; [exact Hp|]. split; [exact Hp|]. split; [reflexivity|].
  exact (generateSymptomSK_injective (lit "fever") (lit "fever")
           (lit "2026-02-01") (lit "2026-02-01") Hp Hp eq_refl).
Defined.

(** With a [#] in the symptom type, two symptoms can have one sort key. *)
Remark generateSymptomSK_collision :
  generateSymptomSK (lit "cough#dry") (lit "2026-02-01")
  = generateSymptomSK (lit "cough") (lit "dry#2026-02-01").
Proof. reflexivity. Qed.

Section Keys.

Variable number_to_string : Z -> jsstring.

(** X20. The keys of the kinds of items are apart: a user key is never a region
    key, and of the sort keys under a user the prefix [PRAKRITI#], by which
    the history is queried, starts those of [generatePrakritiSK] and none
    of the profile, the queries and the plans; the prefix [SYMPTOM#] starts
    every key of [generateSymptomSK].  A user key determines the user. *)
Theorem key_kinds_apart :
  (forall userId pincode,
      generateUserPK userId <> Aggregation.generateRegionPK pincode)
  /\ (forall userId userId',
        generateUserPK userId = generateUserPK userId' -> userId = userId')
  /\ (forall timestamp now,
        startsWith (generatePrakritiSK number_to_string timestamp now)
          (lit "PRAKRITI#") = true
        /\ startsWith (generateQuerySK number_to_string timestamp now)
             (lit "PRAKRITI#") = false)
  /\ startsWith generateProfileSK (lit "PRAKRITI#") = false
  /\ (forall date,
        startsWith (generateWellnessPlanSK date) (lit "PRAKRITI#") = false)
  /\ (forall symptomType date,
        startsWith (generateSymptomSK symptomType date) (lit "SYMPTOM#")
        = true).
Proof.
  split; [intros userId pincode H; discriminate|].
  split; [intros userId userId' H; now apply app_inv_head in H|].
  repeat split; reflexivity.
Qed.

End Keys.

(** *** Batches *)

Section Users.

Variable get_item : jsstring -> jsstring -> option UserEntity.

Local Abbreviation getUser := (Dynamo.getUser get_item).

Lemma omap_id_map (l : list jsstring) :
  omap id (List.map getUser l) = omap getUser l.
Proof.
  induction l as [|x l IH]; [reflexivity|]. csimpl.
  destruct (getUser x); csimpl; now rewrite IH.
Qed.

(** From index [i], enough turns of the loop append the users of the ids
    from [i] on. *)
Lemma batch_loop_spec (turns : nat) (userIds : list jsstring) (i : nat)
  (results : list UserEntity) :
  (length userIds <= i + 100 * turns)%nat ->
  batch_loop get_item turns userIds i results
  = (results ++ omap getUser (drop i userIds))%list.
Proof.
  revert i results. induction turns as [|turns IH]; intros i results Hlen.
  - simpl. rewrite drop_ge by lia. now rewrite app_nil_r.
  - cbn [batch_loop]. destruct (Nat.ltb_spec i (length userIds)).
    + rewrite IH by lia. rewrite omap_id_map, <- app_assoc. f_equal.
      unfold slice. rewrite <- omap_app.
      now rewrite <- drop_drop, take_drop.
    + rewrite drop_ge by lia. now rewrite app_nil_r.
Qed.

(** X21. [batchGetUsers] returns the users that exist, once for each occurrence
    of their id and in the order of the ids, whatever the number of ids:
    cutting the ids into batches of 100 loses and repeats nothing. *)
Theorem batchGetUsers_users (userIds : list jsstring) :
  batchGetUsers get_item userIds = omap getUser userIds.
Proof.
  unfold batchGetUsers. rewrite batch_loop_spec by lia. reflexivity.
Qed.

End Users.

End DynamoFacts.
